(** * GitHub compliance pipeline: extraction and transformation jobs

    A shallow embedding of

    - [src/main/python/jobs/data_extraction.py]: the paginated,
      rate-limited [fetch_data] loop, run against a scripted HTTP server
      and a microsecond clock;
    - [src/main/python/jobs/data_transformation.py]: the Spark job that
      aggregates pull requests per repository, joins the aggregate with
      the repository table, derives [is_compliant] and writes the result
      partitioned by repository name;

    followed by the properties of the two jobs. *)

From Stdlib Require Import ZArith Lia Ascii.
From stdpp Require Import gmap strings list.

Local Open Scope Z_scope.

(** ** Strings

    Strings are byte strings.  The header values that [requests] hands to
    the extraction job are latin-1 decoded, one character per byte; the
    owner logins the transformation job lower-cases are ASCII. *)
Module Text.

(** [pre] is a prefix of [s] *)
Fixpoint startswith (s pre : string) : bool :=
  match pre, s with
  | EmptyString, _ => true
  | String _ _, EmptyString => false
  | String a pre', String b s' =>
      if decide (a = b) then startswith s' pre' else false
  end.

(** [t] occurs in [s]: Python's [t in s], Spark's [s.contains(t)] *)
Fixpoint contains (s t : string) : bool :=
  startswith s t ||
  match s with
  | EmptyString => false
  | String _ s' => contains s' t
  end.

(** Python's [s.split(sep)] for a non-empty separator [sep] (and Spark's
    [split(s, sep)] for a pattern without metacharacters): a scan for
    non-overlapping occurrences from the left.  [skip] counts the
    characters of a matched separator that are still to be dropped. *)
Fixpoint split_go (sep : string) (skip : nat) (cur : string) (s : string)
  : list string :=
  match s with
  | EmptyString => [cur]
  | String c s' =>
      match skip with
      | S k => split_go sep k cur s'
      | O =>
          if startswith s sep
          then cur :: split_go sep (String.length sep - 1) "" s'
          else split_go sep 0 (cur +:+ String c "") s'
      end
  end.

Definition split (s sep : string) : list string := split_go sep 0 "" s.

(** Lower-casing of the letters [A] to [Z]; every other byte is kept. *)
Definition lower_char (c : ascii) : ascii :=
  let n := N_of_ascii c in
  if ((65 <=? n) && (n <=? 90))%N then ascii_of_N (n + 32) else c.

Fixpoint lower (s : string) : string :=
  match s with
  | EmptyString => EmptyString
  | String c s' => String (lower_char c) (lower s')
  end.

End Text.

(** ** Python primitives used by the extraction job *)
Module Py.

Definition char_in (chars : string) (c : ascii) : bool :=
  Text.contains chars (String c "").

Fixpoint lstrip_by (p : ascii -> bool) (s : string) : string :=
  match s with
  | EmptyString => EmptyString
  | String c s' => if p c then lstrip_by p s' else s
  end.

Definition strip_by (p : ascii -> bool) (s : string) : string :=
  String.rev (lstrip_by p (String.rev (lstrip_by p s))).

(** [s.strip(chars)] *)
Definition strip_chars (s chars : string) : string :=
  strip_by (char_in chars) s.

(** The characters [str.isspace] accepts below code point 256. *)
Definition isspace (c : ascii) : bool :=
  let n := N_of_ascii c in
  ((9 <=? n) && (n <=? 13) || (28 <=? n) && (n <=? 32)
   || (n =? 133) || (n =? 160))%N.

(** [s.strip()] *)
Definition strip (s : string) : string := strip_by isspace s.

(** Truth value of a string: [if s:] *)
Definition truthy (s : string) : bool :=
  match s with EmptyString => false | String _ _ => true end.

Definition digit (c : ascii) : option Z :=
  let n := N_of_ascii c in
  if ((48 <=? n) && (n <=? 57))%N then Some (Z.of_N n - 48) else None.

(** The characters that [int] skips around a literal: the ASCII white
    space of C, and the two white-space characters above 127 that a latin-1
    string can hold, which [int] turns into spaces first.  The separators
    28 to 31, which [str.strip] removes, are no white space for [int]. *)
Definition int_space (c : ascii) : bool :=
  let n := N_of_ascii c in
  ((9 <=? n) && (n <=? 13) || (n =? 32) || (n =? 133) || (n =? 160))%N.

(** The most digits [int] converts: the default of
    [sys.get_int_max_str_digits()]. *)
Definition int_max_str_digits : nat := 4300.

Fixpoint count_digits (s : string) : nat :=
  match s with
  | EmptyString => 0
  | String c s' =>
      match digit c with
      | Some _ => S (count_digits s')
      | None => count_digits s'
      end
  end.

(** Digits of an integer literal after the sign: decimal digits, single
    underscores allowed between two digits.  [prev] tells whether the
    previous character was a digit. *)
Fixpoint int_digits (prev : bool) (acc : Z) (s : string) : option Z :=
  match s with
  | EmptyString => if prev then Some acc else None
  | String c s' =>
      match digit c with
      | Some d => int_digits true (10 * acc + d) s'
      | None =>
          if decide (c = "_"%char)
          then (if prev then
                  match s' with
                  | EmptyString => None
                  | String c' _ =>
                      match digit c' with
                      | Some _ => int_digits false acc s'
                      | None => None
                      end
                  end
                else None)
          else None
      end
  end.

(** A literal without sign: [None] when it has more digits than [int]
    converts, or is malformed. *)
Definition int_literal (s : string) : option Z :=
  if decide (int_max_str_digits < count_digits s)%nat then None
  else int_digits false 0 s.

(** [int(s)] on a string: [None] stands for the [ValueError] raised on a
    string that is not a base-10 integer literal, or is one of more than
    4300 digits. *)
Definition int (s : string) : option Z :=
  match strip_by int_space s with
  | String "-" s' => Z.opp <$> int_literal s'
  | String "+" s' => int_literal s'
  | s' => int_literal s'
  end.

(** The double-quote character, for literals such as [rel=] followed by
    the quoted word [next]. *)
Definition dquote : ascii := "034"%char.

Definition quoted (s : string) : string :=
  String dquote (s +:+ String dquote EmptyString).

Inductive exn :=
| KeyError (key : string)
| ValueError
| OverflowError
| OSError.

End Py.

(** ** [data_extraction.py]: the fetcher

    The outside world of [fetch_data] is the HTTP server and the clock.
    The server is a response sequence: the i-th call of [requests.get]
    receives the i-th exchange, whatever URL it asks for, and the URL asked
    for is recorded in the log.  The clock counts microseconds;
    [int(time.time())] is its number of whole seconds, truncated toward
    zero as [int] does.

    Header names are looked up as the code spells them.  The request
    headers (token and media type) are the same in every request and play
    no part in the loop; they are left out of the log.

    What the operating system makes of a sleep is a parameter, [os_sleep]:
    for a wait of [secs] seconds that Python hands down, [None] when the
    process sleeps and wakes, [Some e] when the call fails with [e]. *)
Module DataExtraction.

Record Response (A : Type) := mkResponse {
  status_code : Z;
  headers : gmap string string;   (* response.headers *)
  json : list A                   (* response.json(), a JSON array *)
}.
Arguments mkResponse {A}.
Arguments status_code {A}.
Arguments headers {A}.
Arguments json {A}.

(** One call of [requests.get]: the time it takes and what comes back. *)
Record Exchange (A : Type) := mkExchange {
  latency_us : Z;
  response : Response A
}.
Arguments mkExchange {A}.
Arguments latency_us {A}.
Arguments response {A}.

Inductive Event :=
| EvRequest (url : string) (issued_at_us : Z)   (* requests.get(url, ...) *)
| EvPrintRateLimit (sleep_time : Z)             (* print(f"Rate limit exceeded...") *)
| EvSleep (seconds : Z)                         (* time.sleep(seconds) returned *)
| EvPrintFailed (url : string) (status : Z).    (* print(f"Failed to fetch...") *)

Record World := mkWorld {
  clock_us : Z;
  log : list Event    (* oldest event first *)
}.

Inductive Outcome (A : Type) :=
| Returned (all_data : list A)   (* return all_data *)
| Raised (e : Py.exn)            (* an exception leaves fetch_data *)
| Starved.                       (* the response sequence ended before the loop did *)
Arguments Returned {A}.
Arguments Raised {A}.
Arguments Starved {A}.

Definition us_per_second : Z := 1000000.

(** [int(time.time())] *)
Definition time_now (w : World) : Z := clock_us w ÷ us_per_second.

Definition emit (e : Event) (w : World) : World :=
  {| clock_us := clock_us w; log := log w ++ [e] |}.

(** [requests.get(url, headers=headers)] answered by exchange [x]. *)
Definition do_request {A} (url : string) (x : Exchange A) (w : World) : World :=
  {| clock_us := clock_us w + latency_us x;
     log := log w ++ [EvRequest url (clock_us w)] |}.

(** The world after a [time.sleep(seconds)] that returned. *)
Definition do_sleep (seconds : Z) (w : World) : World :=
  {| clock_us := clock_us w + seconds * us_per_second;
     log := log w ++ [EvSleep seconds] |}.

Definition rel_next : string := "rel=" +:+ Py.quoted "next".

(** Lines 39-48: the value of [url] after a page, [None] for Python's
    [None]. *)
Definition next_url {A} (r : Response A) : option string :=
  match headers r !! "Link" with
  | Some link_header =>
      if Py.truthy link_header then
        let links := Text.split link_header ", " in
        let next_link := List.filter (fun link => Text.contains link rel_next) links in
        match next_link with
        | link :: _ =>
            match Text.split link ";" with
            | first :: _ => Some (Py.strip (Py.strip_chars first "<>"))
            | [] => None
            end
        | [] => None
        end
      else None
  | None => None
  end.

(** [while url:] *)
Definition url_truthy (url : option string) : bool :=
  match url with
  | Some u => Py.truthy u
  | None => false
  end.

(** Lines 49-53, for a response whose status is not 200: the [elif]
    condition, with [inl] the exception [int] raises. *)
Definition rate_limited {A} (r : Response A) : Py.exn + bool :=
  if status_code r =? 403 then
    match headers r !! "X-RateLimit-Remaining" with
    | Some v =>
        match Py.int v with
        | Some n => inr (n =? 0)
        | None => inl Py.ValueError
        end
    | None => inr false
    end
  else inr false.

(** Lines 55-57: [reset_time] and [sleep_time].  The headers of a
    response are a case-insensitive dictionary, and the [KeyError] of a
    missing header names the key in lower case. *)
Definition sleep_time {A} (r : Response A) (w : World) : Py.exn + Z :=
  match headers r !! "X-RateLimit-Reset" with
  | Some v =>
      match Py.int v with
      | Some reset_time => inr (reset_time - time_now w + 1)
      | None => inl Py.ValueError
      end
  | None => inl (Py.KeyError "x-ratelimit-reset")
  end.

Section Platform.
Variable os_sleep : Z → option Py.exn.

(** The seconds that fit the nanosecond clock of [time.sleep]. *)
Definition sleep_bound : Z := 9223372036.

(** [time.sleep(secs)] for an integer: [Some e] when it raises [e], [None]
    when it returns.  A wait that does not fit the clock is an
    [OverflowError], a negative one that fits is a [ValueError], and any
    other goes to the operating system. *)
Definition time_sleep (secs : Z) : option Py.exn :=
  if (secs <? - sleep_bound) || (sleep_bound <? secs) then Some Py.OverflowError
  else if secs <? 0 then Some Py.ValueError
  else os_sleep secs.

(** The [while] loop of [fetch_data].  Every iteration calls
    [requests.get] once, so the loop is structural in the response
    sequence.  The result carries the final world and the exchanges the
    loop did not consume. *)
Fixpoint fetch_loop {A} (script : list (Exchange A)) (w : World)
    (url : option string) (all_data : list A)
  : Outcome A * World * list (Exchange A) :=
  match url with
  | Some u =>
      if Py.truthy u then
        match script with
        | [] => (Starved, emit (EvRequest u (clock_us w)) w, [])
        | x :: rest =>
            let w1 := do_request u x w in
            let r := response x in
            if status_code r =? 200 then
              fetch_loop rest w1 (next_url r) (all_data ++ json r)
            else
              match rate_limited r with
              | inl e => (Raised e, w1, rest)
              | inr true =>
                  match sleep_time r w1 with
                  | inl e => (Raised e, w1, rest)
                  | inr secs =>
                      let w2 := emit (EvPrintRateLimit secs) w1 in
                      match time_sleep secs with
                      | Some e => (Raised e, w2, rest)
                      | None => fetch_loop rest (do_sleep secs w2) url all_data
                      end
                  end
              | inr false =>
                  (Returned all_data, emit (EvPrintFailed u (status_code r)) w1, rest)
              end
        end
      else (Returned all_data, w, script)
  | None => (Returned all_data, w, script)
  end.

Definition start (clock : Z) : World := {| clock_us := clock; log := [] |}.

(** [fetch_data(url)] started at clock reading [clock] against [script]. *)
Definition fetch_data {A} (script : list (Exchange A)) (clock : Z) (url : string)
  : Outcome A * World * list (Exchange A) :=
  fetch_loop script (start clock) (Some url) [].

End Platform.

End DataExtraction.

(** ** Spark SQL primitives used by the transformation job

    A nullable column value is an [option]; [None] is SQL's NULL.
    Comparison and conjunction are three-valued. *)
Module Sql.

(** [a == b] on nullable longs *)
Definition eq (a b : option Z) : option bool :=
  match a, b with
  | Some x, Some y => Some (x =? y)
  | _, _ => None
  end.

(** [a & b] *)
Definition and (a b : option bool) : option bool :=
  match a, b with
  | Some false, _ | _, Some false => Some false
  | Some true, Some true => Some true
  | _, _ => None
  end.

(** [lower(c)] *)
Definition lower (c : option string) : option string := Text.lower <$> c.

(** [c.contains(t)] for a literal [t] *)
Definition contains (c : option string) (t : string) : option bool :=
  (fun s => Text.contains s t) <$> c.

(** [when(c, a).otherwise(b)] *)
Definition when_otherwise {X} (c : option bool) (a b : X) : X :=
  match c with
  | Some true => a
  | _ => b
  end.

(** [split(c, pat).getItem(0)] *)
Definition split_item0 (c : option string) (pat : string) : option string :=
  s ← c; head (Text.split s pat).

(** The non-NULL inputs of an aggregate function. *)
Definition present {X} (vs : list (option X)) : list X := omap (fun v => v) vs.

(** [COUNT( * )] of a group *)
Definition count_star {X} (group : list X) : Z := Z.of_nat (length group).

(** [SUM(e)]: NULL when no input is non-NULL *)
Definition sum (vs : list (option Z)) : option Z :=
  match present vs with
  | [] => None
  | x :: xs => Some (foldl Z.add x xs)
  end.

Definition greater (a b : string) : string := if String.leb a b then b else a.

(** [MAX(e)] on strings, in byte order: NULL when no input is non-NULL *)
Definition max (vs : list (option string)) : option string :=
  match present vs with
  | [] => None
  | x :: xs => Some (foldl greater x xs)
  end.

End Sql.

(** ** [data_transformation.py]: the aggregator

    A data frame is the list of its rows; Spark fixes no row order, and no
    property below depends on one.  The columns that [spark.read.json]
    infers are nullable, so in a column that the schema has, a field that a
    JSON record lacks is NULL.  Which columns the schema has, and what the
    job does when it lacks one, is the matter of [SparkRead] below. *)
Module DataTransformation.

(** The columns of [repo_raw_df] that the job reads. *)
Record Repository := mkRepository {
  full_name : option string;
  repo_id : option Z;            (* id *)
  repo_name : option string;     (* name *)
  owner_login : option string    (* owner.login *)
}.

(** The columns of [pr_raw_df] that the job reads, and the [repository]
    tag that [fetch_pull_requests] adds to every record. *)
Record PullRequest := mkPullRequest {
  head_repo_id : option Z;       (* head.repo.id *)
  pr_merged_at : option string;  (* merged_at *)
  repository : option string
}.

Record RepositorySummary := mkRepositorySummary {
  rs_organization_name : option string;
  rs_repository_id : option Z;
  rs_repository_name : option string;
  rs_repository_owner : option string
}.

Record PullRequestAggregate := mkPullRequestAggregate {
  agg_repository_id : option Z;
  agg_num_prs : Z;
  agg_num_prs_merged : option Z;
  agg_merged_at : option string
}.

(** A row of [joined_df]: the join column, then the other columns of the
    left table, then those of the right table. *)
Record Joined := mkJoined {
  j_repository_id : Z;
  j_num_prs : Z;
  j_num_prs_merged : option Z;
  j_merged_at : option string;
  j_organization_name : option string;
  j_repository_name : option string;
  j_repository_owner : option string
}.

(** A row of the final [final_df], in the order of its [select]. *)
Record ComplianceRecord := mkComplianceRecord {
  organization_name : option string;
  repository_id : Z;
  repository_name : option string;
  repository_owner : option string;
  num_prs : Z;
  num_prs_merged : option Z;
  merged_at : option string;
  is_compliant : bool
}.

(** Lines 25-30 *)
Definition repo_filtered_df (repo_raw_df : list Repository) : list RepositorySummary :=
  (fun r => {| rs_organization_name := Sql.split_item0 (full_name r) "/";
               rs_repository_id := repo_id r;
               rs_repository_name := repo_name r;
               rs_repository_owner := owner_login r |}) <$> repo_raw_df.

(** [CASE WHEN merged_at IS NOT NULL THEN 1 ELSE 0 END] *)
Definition merged_case (pr : PullRequest) : option Z :=
  match pr_merged_at pr with
  | Some _ => Some 1
  | None => Some 0
  end.

(** [GROUP BY head.repo.id]: the distinct keys, NULL being one of them,
    and the rows of one key. *)
Definition group_keys (prs : list PullRequest) : list (option Z) :=
  remove_dups (head_repo_id <$> prs).

Definition group_rows (key : option Z) (prs : list PullRequest) : list PullRequest :=
  filter (fun pr => head_repo_id pr = key) prs.

(** Lines 37-41: the aggregate row of the group of [key]. *)
Definition aggregate_group (pr_raw_df : list PullRequest) (key : option Z)
  : PullRequestAggregate :=
  let group := group_rows key pr_raw_df in
  {| agg_repository_id := key;
     agg_num_prs := Sql.count_star group;
     agg_num_prs_merged := Sql.sum (merged_case <$> group);
     agg_merged_at := Sql.max (pr_merged_at <$> group) |}.

(** Lines 35-45: one row per group. *)
Definition pr_aggregated_df (pr_raw_df : list PullRequest) : list PullRequestAggregate :=
  aggregate_group pr_raw_df <$> group_keys pr_raw_df.

(** Line 47: the inner equi-join on [repository_id]; NULL equals nothing. *)
Definition join_row (a : PullRequestAggregate) (r : RepositorySummary) : list Joined :=
  match agg_repository_id a, rs_repository_id r with
  | Some x, Some y =>
      if decide (x = y) then
        [ {| j_repository_id := x;
             j_num_prs := agg_num_prs a;
             j_num_prs_merged := agg_num_prs_merged a;
             j_merged_at := agg_merged_at a;
             j_organization_name := rs_organization_name r;
             j_repository_name := rs_repository_name r;
             j_repository_owner := rs_repository_owner r |} ]
      else []
  | _, _ => []
  end.

Definition joined_df (aggs : list PullRequestAggregate)
    (repos : list RepositorySummary) : list Joined :=
  a ← aggs; r ← repos; join_row a r.

(** Lines 51-55: the value of the [is_compliant] column. *)
Definition compliant (j : Joined) : bool :=
  Sql.when_otherwise
    (Sql.and (Sql.eq (Some (j_num_prs j)) (j_num_prs_merged j))
             (Sql.contains (Sql.lower (j_repository_owner j)) "scytale"))
    true false.

(** Lines 49-67: [withColumn] and the final [select]. *)
Definition select_final (j : Joined) : ComplianceRecord :=
  {| organization_name := j_organization_name j;
     repository_id := j_repository_id j;
     repository_name := j_repository_name j;
     repository_owner := j_repository_owner j;
     num_prs := j_num_prs j;
     num_prs_merged := j_num_prs_merged j;
     merged_at := j_merged_at j;
     is_compliant := compliant j |}.

(** The job, from the two raw data frames to [final_df]. *)
Definition final_df (repo_raw_df : list Repository) (pr_raw_df : list PullRequest)
  : list ComplianceRecord :=
  select_final <$> joined_df (pr_aggregated_df pr_raw_df) (repo_filtered_df repo_raw_df).

(** A row as Spark holds it: named cells, in column order. *)
Inductive Cell :=
| CNull
| CLong (n : Z)
| CString (s : string)
| CBool (b : bool).

Definition cell_string (c : option string) : Cell :=
  match c with Some s => CString s | None => CNull end.

Definition cell_long (c : option Z) : Cell :=
  match c with Some n => CLong n | None => CNull end.

(** The columns of [joined_df]: the join column first, then the other
    columns of [pr_aggregated_df], then those of [repo_filtered_df]. *)
Definition joined_cells (j : Joined) : list (string * Cell) :=
  [ ("repository_id", CLong (j_repository_id j));
    ("num_prs", CLong (j_num_prs j));
    ("num_prs_merged", cell_long (j_num_prs_merged j));
    ("merged_at", cell_string (j_merged_at j));
    ("organization_name", cell_string (j_organization_name j));
    ("repository_name", cell_string (j_repository_name j));
    ("repository_owner", cell_string (j_repository_owner j)) ].

(** [df.withColumn(name, value)]: the column of that name is replaced
    where it stands, a new name is added as the last column. *)
Definition withColumn (name : string) (value : Cell) (row : list (string * Cell))
  : list (string * Cell) :=
  if decide (name ∈ row.*1)
  then (fun nv => if decide (nv.1 = name) then (name, value) else nv) <$> row
  else row ++ [(name, value)].

(** [df.select(col(n1), ..., col(nk))]: the named columns in the order
    asked for; [None] when a name does not resolve. *)
Definition select (names : list string) (row : list (string * Cell))
  : option (list (string * Cell)) :=
  mapM (fun name => (fun v => (name, v)) <$> (list_to_map row : gmap string Cell) !! name)
       names.

(** Lines 58-67: the column list of the final [select]. *)
Definition final_select : list string :=
  [ "organization_name"; "repository_id"; "repository_name"; "repository_owner";
    "num_prs"; "num_prs_merged"; "merged_at"; "is_compliant" ].

(** Lines 49-67 on the cells of a joined row. *)
Definition final_cells (j : Joined) : option (list (string * Cell)) :=
  select final_select (withColumn "is_compliant" (CBool (compliant j)) (joined_cells j)).

(** The cells of a typed final row. *)
Definition columns (r : ComplianceRecord) : list (string * Cell) :=
  [ ("organization_name", cell_string (organization_name r));
    ("repository_id", CLong (repository_id r));
    ("repository_name", cell_string (repository_name r));
    ("repository_owner", cell_string (repository_owner r));
    ("num_prs", CLong (num_prs r));
    ("num_prs_merged", cell_long (num_prs_merged r));
    ("merged_at", cell_string (merged_at r));
    ("is_compliant", CBool (is_compliant r)) ].

(** The final data frame as Spark holds it: lines 49-67 on every row of
    the join; [None] when a column of the [select] does not resolve. *)
Definition final_frame (repo_raw_df : list Repository) (pr_raw_df : list PullRequest)
  : option (list (list (string * Cell))) :=
  mapM final_cells (joined_df (pr_aggregated_df pr_raw_df) (repo_filtered_df repo_raw_df)).

(** Lines 69-72: [df.write.partitionBy(name).mode("overwrite").parquet(dir)].
    What the output directory holds afterwards, whatever it held before, is
    one directory per value of the partition column, named
    [name=<the value>], and in it the records of the rows of that value.
    The partition column is in the directory name only: a stored record has
    the other columns of its row, in the order of the frame.  Spark's
    spelling of a value in a directory name (its escaping, and its name for
    NULL) is the parameter [partition_value]. *)
Abbreviation Dataset := (gmap string (list (list (string * Cell)))).

Section Write.
Variable partition_value : Cell → string.

Definition partition_dir (name : string) (v : Cell) : string :=
  name +:+ "=" +:+ partition_value v.

(** The directory and the stored record of one row; [None] when the frame
    has no column of that name. *)
Definition partition_of (name : string) (row : list (string * Cell))
  : option (string * list (string * Cell)) :=
  v ← (list_to_map row : gmap string Cell) !! name;
  Some (partition_dir name v, filter (fun nv => nv.1 ≠ name) row).

Definition store (part : string * list (string * Cell)) (out : Dataset) : Dataset :=
  <[ part.1 := part.2 :: default [] (out !! part.1) ]> out.

Definition write_partitionBy (name : string) (rows : list (list (string * Cell)))
  : option Dataset :=
  parts ← mapM (partition_of name) rows;
  Some (foldr store ∅ parts).

End Write.

End DataTransformation.

(** ** [spark.read.json] and the columns the job names

    The schema of a data frame read from JSON is inferred from the records:
    it has a column, or a field of a struct column, exactly when some
    record carries it.  A column that the job names ([col], the [SELECT] and
    [GROUP BY] of the query) and that the schema lacks does not resolve, and
    Spark raises [AnalysisException] at that line.  Values are taken to have
    the types the API gives them. *)
Module SparkRead.
Import DataTransformation.

(** One path of one JSON record: not carried (a key on the path is missing,
    or an object on the way is missing or null), carried with the value
    null, or carried with a value. *)
Inductive Field (X : Type) :=
| Missing
| Null
| Value (x : X).
Arguments Missing {X}.
Arguments Null {X}.
Arguments Value {X} x.

(** The paths of a repository record that the job reads. *)
Record RawRepository := mkRawRepository {
  raw_full_name : Field string;
  raw_id : Field Z;
  raw_name : Field string;
  raw_owner_login : Field string     (* owner.login *)
}.

(** The paths of a pull-request record that the job reads, and the tag. *)
Record RawPullRequest := mkRawPullRequest {
  raw_head_repo_id : Field Z;        (* head.repo.id *)
  raw_merged_at : Field string;
  raw_repository : Field string
}.

Definition carried {X} (f : Field X) : bool :=
  match f with Missing => false | _ => true end.

(** The cell of a record in a column that the schema has. *)
Definition cell {X} (f : Field X) : option X :=
  match f with Value x => Some x | _ => None end.

(** The inferred schema has the column when some record carries it. *)
Definition in_schema {R X} (column : R → Field X) (records : list R) : bool :=
  existsb (fun r => carried (column r)) records.

(** Lines 24 and 33: the rows read, in the columns the job names. *)
Definition repo_raw_df (records : list RawRepository) : list Repository :=
  (fun r => {| full_name := cell (raw_full_name r);
               repo_id := cell (raw_id r);
               repo_name := cell (raw_name r);
               owner_login := cell (raw_owner_login r) |}) <$> records.

Definition pr_raw_df (records : list RawPullRequest) : list PullRequest :=
  (fun r => {| head_repo_id := cell (raw_head_repo_id r);
               pr_merged_at := cell (raw_merged_at r);
               repository := cell (raw_repository r) |}) <$> records.

(** The columns of lines 25-30, and those of the query of lines 35-45. *)
Definition repo_columns_resolve (records : list RawRepository) : bool :=
  in_schema raw_full_name records && in_schema raw_id records &&
  in_schema raw_name records && in_schema raw_owner_login records.

Definition pr_columns_resolve (records : list RawPullRequest) : bool :=
  in_schema raw_head_repo_id records && in_schema raw_merged_at records.

Inductive Fault := AnalysisException.

Section Job.
Variable partition_value : Cell → string.

(** The whole job, from the records of the two input files to the data set
    in the output directory. *)
Definition job (repos : list RawRepository) (prs : list RawPullRequest)
  : Fault + Dataset :=
  if repo_columns_resolve repos then
    if pr_columns_resolve prs then
      match final_frame (repo_raw_df repos) (pr_raw_df prs)
              ≫= write_partitionBy partition_value "repository_name" with
      | Some out => inr out
      | None => inl AnalysisException
      end
    else inl AnalysisException
  else inl AnalysisException.

End Job.

End SparkRead.

(** ** Server behaviours that the fetcher properties quantify over *)
Module Sessions.
Import DataExtraction.

(** A quota-exhaustion response: HTTP 403 whose [X-RateLimit-Remaining]
    header is the integer zero and whose [X-RateLimit-Reset] header is the
    integer [T]. *)
Definition quota_exhausted {A} (r : Response A) (T : Z) : Prop :=
  status_code r = 403 ∧
  (∃ v, headers r !! "X-RateLimit-Remaining" = Some v ∧ Py.int v = Some 0) ∧
  (∃ v, headers r !! "X-RateLimit-Reset" = Some v ∧ Py.int v = Some T).

(** A terminal failure: the status is not 200, and when it is 403 the
    remaining-quota header is missing or holds an integer other than zero.
    (On a 403 whose header holds no integer, [int] raises.) *)
Definition terminal_failure {A} (r : Response A) : Prop :=
  status_code r ≠ 200 ∧
  (status_code r = 403 →
   ∀ v, headers r !! "X-RateLimit-Remaining" = Some v →
        ∃ n, Py.int v = Some n ∧ n ≠ 0).

(** A successful page that links to a next page, and one that does not. *)
Definition page_with_next {A} (r : Response A) : Prop :=
  status_code r = 200 ∧ ∃ u, next_url r = Some u ∧ u ≠ EmptyString.

Definition final_page {A} (r : Response A) : Prop :=
  status_code r = 200 ∧ url_truthy (next_url r) = false.

Inductive Ending := Complete | Failed.

(** The clock reading at which the fetcher, having issued a request at
    reading [c] that exchange [x] answers with a quota exhaustion that
    resets at [T], is through with its wait. *)
Definition wait_seconds {A} (c : Z) (x : Exchange A) (T : Z) : Z :=
  T - (c + latency_us x) ÷ us_per_second + 1.

Definition resume_clock {A} (c : Z) (x : Exchange A) (T : Z) : Z :=
  c + latency_us x + wait_seconds c x T * us_per_second.

(** [serves c u script pages urls e rest]: from clock reading [c] on, and
    asked first for URL [u], the server answers with [script].  Its
    responses are the successful pages [pages], each but the last naming in
    its next link the URL at which the one after it is served, with any
    number of quota exhaustions whose wait [time.sleep] accepts before each
    of them; [urls] holds, response by response, the URL at which each
    response is served.  The sequence ends with a page that has no next link
    ([Complete]) or with a terminal failure after the pages ([Failed]), and
    [rest] is what follows. *)
Inductive serves {A} (os_sleep : Z → option Py.exn)
  : Z → string → list (Exchange A) → list (list A) → list string → Ending →
    list (Exchange A) → Prop :=
| serves_final c u x rest :
    final_page (response x) →
    serves os_sleep c u (x :: rest) [json (response x)] [u] Complete rest
| serves_next c u u' x script pages urls e rest :
    status_code (response x) = 200 →
    next_url (response x) = Some u' →
    u' ≠ EmptyString →
    serves os_sleep (c + latency_us x) u' script pages urls e rest →
    serves os_sleep c u (x :: script) (json (response x) :: pages) (u :: urls) e rest
| serves_quota c u x T script pages urls e rest :
    quota_exhausted (response x) T →
    time_sleep os_sleep (wait_seconds c x T) = None →
    serves os_sleep (resume_clock c x T) u script pages urls e rest →
    serves os_sleep c u (x :: script) pages (u :: urls) e rest
| serves_failure c u x rest :
    terminal_failure (response x) →
    serves os_sleep c u (x :: rest) [] [u] Failed rest.

(** The bodies of the successful responses of a response sequence, in
    response order. *)
Definition successful_pages {A} (used : list (Exchange A)) : list (list A) :=
  (fun x => json (response x)) <$>
  filter (fun x => status_code (response x) = 200) used.

(** The URLs requested, oldest first. *)
Definition requested (l : list Event) : list string :=
  omap (fun e => match e with EvRequest u _ => Some u | _ => None end) l.

(** The durations slept, oldest first. *)
Definition slept (l : list Event) : list Z :=
  omap (fun e => match e with EvSleep d => Some d | _ => None end) l.

End Sessions.

(** ** Sample data for the concrete instances below *)
Module Samples.
Import DataExtraction.

Definition seed : string := "https://api.github.com/orgs/scytale/repos".
Definition page2_url : string := "https://api.github.com/orgs/scytale/repos?page=2".

Definition link_to_page2 : string :=
  "<" +:+ page2_url +:+ ">; rel=" +:+ Py.quoted "next" +:+
  ", <https://api.github.com/orgs/scytale/repos?page=2>; rel=" +:+ Py.quoted "last".

Definition link_back : string :=
  "<" +:+ seed +:+ ">; rel=" +:+ Py.quoted "first".

(** Page 1 of 2 holds records 11 and 12; page 2 holds record 21. *)
Definition page1 : Exchange Z :=
  mkExchange 250000 (mkResponse 200 {[ "Link" := link_to_page2 ]} [11; 12]).

Definition page2 : Exchange Z :=
  mkExchange 250000 (mkResponse 200 {[ "Link" := link_back ]} [21]).

(** A quota exhaustion that resets at epoch second [reset]. *)
Definition quota (reset : string) : Exchange Z :=
  mkExchange 250000
    (mkResponse 403
       (<[ "X-RateLimit-Remaining" := "0" ]> {[ "X-RateLimit-Reset" := reset ]}) []).

Definition server_error : Exchange Z :=
  mkExchange 250000 (mkResponse 500 ∅ []).

(** The clock reads epoch second 1000 and 400 milliseconds. *)
Definition clock0 : Z := 1000400000.

(** An operating system that sleeps up to a hundred million seconds and
    rejects a longer wait as an invalid argument. *)
Definition sample_sleep (secs : Z) : option Py.exn :=
  if secs <=? 100000000 then None else Some Py.OSError.

End Samples.

(** ** Terms of the aggregator properties, and the scenarios of the tests *)
Module Scenarios.
Import DataTransformation.

(** [t] occurs in [s] when case is ignored: some substring of [s] and [t]
    have the same lower-casing. *)
Definition occurs_ignoring_case (t s : string) : Prop :=
  ∃ pre mid post, s = pre +:+ mid +:+ post ∧ Text.lower mid = Text.lower t.

(** The pull requests of one group that have a merge timestamp. *)
Definition merged_prs (group : list PullRequest) : list PullRequest :=
  filter (fun pr => is_Some (pr_merged_at pr)) group.

(** The value of the [CASE] expression of line 40, which is never NULL. *)
Definition merged_indicator (pr : PullRequest) : Z :=
  match pr_merged_at pr with Some _ => 1 | None => 0 end.

(** The same pull request under another [repository] tag. *)
Definition retag (tag : PullRequest → option string) (pr : PullRequest) : PullRequest :=
  {| head_repo_id := head_repo_id pr;
     pr_merged_at := pr_merged_at pr;
     repository := tag pr |}.

Definition repoA : Repository :=
  mkRepository (Some "scytale/repoA") (Some 1) (Some "repoA") (Some "Scytale-AI").

Definition repoB : Repository :=
  mkRepository (Some "other-org/repoB") (Some 2) (Some "repoB") (Some "other-org").

(** A repository without pull requests, and one whose owner is missing. *)
Definition repoC : Repository :=
  mkRepository (Some "scytale/repoC") (Some 3) (Some "repoC") (Some "scytale").

Definition repoD : Repository :=
  mkRepository (Some "scytale/repoD") (Some 4) (Some "repoD") None.

Definition pr (id : option Z) (merged : option string) (tag : string) : PullRequest :=
  mkPullRequest id merged (Some tag).

(** Repository 1: both merged.  Repository 2: both merged.  Repository 4:
    one of two merged.  Repository 9 is not among the repositories, and one
    pull request has no head repository. *)
Definition pull_requests : list PullRequest :=
  [ pr (Some 1) (Some "2024-01-01T10:00:00Z") "repoA";
    pr (Some 2) (Some "2024-02-01T00:00:00Z") "repoB";
    pr (Some 1) (Some "2024-03-05T08:30:00Z") "repoA";
    pr None (Some "2024-03-06T00:00:00Z") "repoA";
    pr (Some 4) None "repoD";
    pr (Some 2) (Some "2023-12-31T23:59:59Z") "repoB";
    pr (Some 4) (Some "2024-01-15T00:00:00Z") "repoD";
    pr (Some 9) None "repoA" ].

Definition repositories : list Repository := [repoA; repoB; repoC; repoD].

(** The aggregate row of repository 4 and the final row of repository 1. *)
Definition aggregate4 : PullRequestAggregate :=
  {| agg_repository_id := Some 4;
     agg_num_prs := 2;
     agg_num_prs_merged := Some 1;
     agg_merged_at := Some "2024-01-15T00:00:00Z" |}.

Definition recordA : ComplianceRecord :=
  {| organization_name := Some "scytale";
     repository_id := 1;
     repository_name := Some "repoA";
     repository_owner := Some "Scytale-AI";
     num_prs := 2;
     num_prs_merged := Some 2;
     merged_at := Some "2024-03-05T08:30:00Z";
     is_compliant := true |}.

(** A spelling of partition values for the scenarios: a string as it is,
    anything else as the default partition. *)
Definition plain_value (v : Cell) : string :=
  match v with
  | CString s => s
  | _ => "__HIVE_DEFAULT_PARTITION__"
  end.

End Scenarios.

(** ** The scenarios as JSON records *)
Module RawScenarios.
Import DataTransformation SparkRead.

Definition raw_pr (id : Field Z) (merged : Field string) (tag : string) : RawPullRequest :=
  mkRawPullRequest id merged (Value tag).

(** The repositories of [Scenarios]; the last has no owner object. *)
Definition raw_repositories : list RawRepository :=
  [ mkRawRepository (Value "scytale/repoA") (Value 1) (Value "repoA") (Value "Scytale-AI");
    mkRawRepository (Value "other-org/repoB") (Value 2) (Value "repoB") (Value "other-org");
    mkRawRepository (Value "scytale/repoC") (Value 3) (Value "repoC") (Value "scytale");
    mkRawRepository (Value "scytale/repoD") (Value 4) (Value "repoD") Missing ].

(** The pull requests of [Scenarios]; the head repository of the fourth is
    gone, and the unmerged ones have a null [merged_at]. *)
Definition raw_pull_requests : list RawPullRequest :=
  [ raw_pr (Value 1) (Value "2024-01-01T10:00:00Z") "repoA";
    raw_pr (Value 2) (Value "2024-02-01T00:00:00Z") "repoB";
    raw_pr (Value 1) (Value "2024-03-05T08:30:00Z") "repoA";
    raw_pr Missing (Value "2024-03-06T00:00:00Z") "repoA";
    raw_pr (Value 4) Null "repoD";
    raw_pr (Value 2) (Value "2023-12-31T23:59:59Z") "repoB";
    raw_pr (Value 4) (Value "2024-01-15T00:00:00Z") "repoD";
    raw_pr (Value 9) Null "repoA" ].

(** A pull-request file in which no record has a head repository. *)
Definition orphan_pull_requests : list RawPullRequest :=
  [ raw_pr Missing (Value "2024-03-06T00:00:00Z") "repoA";
    raw_pr Missing Null "repoB" ].

End RawScenarios.

(** ** More sample responses: malformed rate-limit headers *)
Module EdgeSamples.
Import DataExtraction.

(** A zero-quota 403 that names no reset time. *)
Definition quota_without_reset : Exchange Z :=
  mkExchange 250000 (mkResponse 403 {[ "X-RateLimit-Remaining" := "0" ]} []).

(** A 403 whose remaining-quota header is no integer. *)
Definition forbidden_garbled : Exchange Z :=
  mkExchange 250000 (mkResponse 403 {[ "X-RateLimit-Remaining" := "none" ]} []).

(** The next links of the successful responses of a response sequence. *)
Definition next_links {A} (script : list (Exchange A)) : list string :=
  omap (fun x => if status_code (response x) =? 200 then next_url (response x) else None)
       script.

End EdgeSamples.

(** ** The compliance record a repository should get, in terms of its
    pull requests *)
Module Expected.
Import DataTransformation Scenarios.





(** What [repo_filtered_df] makes of one repository: the identifier, name
    and owner as they are, and as organization the text of [full_name]
    before its first slash, all of it when there is no slash. *)
Definition summarises (repo : Repository) (row : RepositorySummary) : Prop :=
  rs_repository_id row = repo_id repo ∧
  rs_repository_name row = repo_name repo ∧
  rs_repository_owner row = owner_login repo ∧
  match full_name repo with
  | None => rs_organization_name row = None
  | Some s =>
      ∃ first,
        rs_organization_name row = Some first ∧
        Text.contains first "/" = false ∧
        (s = first ∨ ∃ rest, s = first +:+ "/" +:+ rest)
  end.

(** The record stored for a final row: its columns but [repository_name],
    which names the directory. *)
Definition stored_columns (r : ComplianceRecord) : list (string * Cell) :=
  [ ("organization_name", cell_string (organization_name r));
    ("repository_id", CLong (repository_id r));
    ("repository_owner", cell_string (repository_owner r));
    ("num_prs", CLong (num_prs r));
    ("num_prs_merged", cell_long (num_prs_merged r));
    ("merged_at", cell_string (merged_at r));
    ("is_compliant", CBool (is_compliant r)) ].

End Expected.

(** ** [data_extraction.py]: the harvest and [main]

    A fetched record is a JSON object, a finite map from keys to values.
    The values are left abstract; [format] is how an f-string renders one
    (a string renders as itself). *)
Module Harvest.
Import DataExtraction.

Section Values.
Context {V : Type}.
Variable format : V → string.
Variable os_sleep : Z → option Py.exn.

(** Line 95 *)
Definition repos_url (organization : string) : string :=
  "https://api.github.com/orgs/" +:+ organization +:+ "/repos".

(** Line 109 *)
Definition prs_url (organization : string) (repo : V) : string :=
  "https://api.github.com/repos/" +:+ organization +:+ "/" +:+ format repo
  +:+ "/pulls?state=all".

(** [fetch_data(url)] in a world that is already under way. *)
Definition fetch_data_in (script : list (Exchange (gmap string V))) (w : World)
    (url : string) :=
  fetch_loop os_sleep script w (Some url) [].

(** [fetch_repositories(organization)] *)
Definition fetch_repositories (script : list (Exchange (gmap string V))) (w : World)
    (organization : string) :=
  fetch_data_in script w (repos_url organization).

(** Lines 112-113: [pr["repository"] = repo] for every record of [prs]. *)
Definition tag (repo : V) (prs : list (gmap string V)) : list (gmap string V) :=
  (fun pr => <["repository" := repo]> pr) <$> prs.

(** The [for] loop of [fetch_pull_requests], with [pr_data] as gathered so
    far.  An exception of [fetch_data] leaves the loop and the function. *)
Fixpoint fetch_pull_requests_from (organization : string) (repositories : list V)
    (script : list (Exchange (gmap string V))) (w : World)
    (pr_data : list (gmap string V))
  : Outcome (gmap string V) * World * list (Exchange (gmap string V)) :=
  match repositories with
  | [] => (Returned pr_data, w, script)
  | repo :: more =>
      match fetch_data_in script w (prs_url organization repo) with
      | (Returned prs, w', rest) =>
          fetch_pull_requests_from organization more rest w'
            (match prs with
             | [] => pr_data
             | _ :: _ => pr_data ++ tag repo prs
             end)
      | (Raised e, w', rest) => (Raised e, w', rest)
      | (Starved, w', rest) => (Starved, w', rest)
      end
  end.

(** [fetch_pull_requests(organization, repositories)] *)
Definition fetch_pull_requests (script : list (Exchange (gmap string V))) (w : World)
    (organization : string) (repositories : list V) :=
  fetch_pull_requests_from organization repositories script w [].

(** *** Paths

    A path is the list of its components below the root; a component holds
    no slash. *)

(** [str(path)] *)
Definition path_str (path : list string) : string :=
  match path with
  | [] => "/"
  | _ :: _ => foldr (fun c rest => "/" +:+ c +:+ rest) EmptyString path
  end.

(** [path.parents[n]]: [None] stands for the [IndexError]. *)
Definition parents (path : list string) (n : nat) : option (list string) :=
  if decide (n < length path)%nat then Some (take (length path - S n) path) else None.

Definition endswith (s suffix : string) : bool :=
  Text.startswith (String.rev s) (String.rev suffix).

(** [os.path.join(a, b)] on POSIX *)
Definition os_path_join (a b : string) : string :=
  if Text.startswith b "/" then b
  else if negb (Py.truthy a) || endswith a "/" then a +:+ b
  else a +:+ "/" +:+ b.

(** [s.replace(old, new)] for single characters *)
Fixpoint replace_char (old new : ascii) (s : string) : string :=
  match s with
  | EmptyString => EmptyString
  | String c s' => String (if decide (c = old) then new else c) (replace_char old new s')
  end.

(** [organization.lower().replace("-", "_")] *)
Definition file_stem (organization : string) : string :=
  replace_char "-" "_" (Text.lower organization).

Definition repositories_file (organization : string) : string :=
  file_stem organization +:+ "_repositories.json".

Definition pull_requests_file (organization : string) : string :=
  file_stem organization +:+ "_pull_requests.json".

(** *** The disk

    A file holds the data that [json.dump] wrote to it.  Writing and
    creating directories never fail. *)
Inductive Message :=
| MsgSaved (full_path : string)   (* print(f"Data saved to {full_path}") *)
| MsgNoData.                      (* print("No data to save.") *)

Record Disk := mkDisk {
  files : gmap string (list (gmap string V));
  dirs : gset string;
  console : list Message
}.

(** [path.mkdir(parents=True, exist_ok=True)] and [os.makedirs(path,
    exist_ok=True)]: the directory and every ancestor of it exist
    afterwards. *)
Definition makedirs (path : list string) (disk : Disk) : Disk :=
  {| files := files disk;
     dirs := dirs disk ∪
             list_to_set ((fun n => path_str (take n path)) <$> seq 0 (S (length path)));
     console := console disk |}.

(** [save_df_as_json(data, path, filename)] *)
Definition save_df_as_json (data : list (gmap string V)) (path : list string)
    (filename : string) (disk : Disk) : Disk :=
  match data with
  | _ :: _ =>
      let disk1 := makedirs path disk in
      let full_path := os_path_join (path_str path) filename in
      {| files := <[full_path := data]> (files disk1);
         dirs := dirs disk1;
         console := console disk1 ++ [MsgSaved full_path] |}
  | [] =>
      {| files := files disk; dirs := dirs disk; console := console disk ++ [MsgNoData] |}
  end.

Inductive MainOutcome :=
| Finished                 (* main returns *)
| Failed (e : Py.exn)      (* an exception of the fetcher or a KeyError leaves main *)
| NoSuchParent             (* the IndexError of parents[2] *)
| Stalled.                 (* the response sequence ended before main did *)

(** Lines 125-128 *)
Definition dynamic_path (file : list string) : option (list string) :=
  project_root_path ← parents file 2; Some (project_root_path ++ ["data"; "input"]).

(** Line 143: [[repo["name"] for repo in repos_data]], [None] standing for
    the [KeyError]. *)
Definition repository_names (repos_data : list (gmap string V)) : option (list V) :=
  mapM (fun repo => repo !! "name") repos_data.

(** [main()], for the organization of the environment and the resolved
    path [file] of the script. *)
Definition main (file : list string) (organization : string)
    (script : list (Exchange (gmap string V))) (w : World) (disk : Disk)
  : MainOutcome * World * list (Exchange (gmap string V)) * Disk :=
  match dynamic_path file with
  | None => (NoSuchParent, w, script, disk)
  | Some dir =>
      let disk1 := makedirs dir disk in
      match fetch_repositories script w organization with
      | (Raised e, w1, rest) => (Failed e, w1, rest, disk1)
      | (Starved, w1, rest) => (Stalled, w1, rest, disk1)
      | (Returned repos_data, w1, rest) =>
          let disk2 := save_df_as_json repos_data dir (repositories_file organization) disk1 in
          match repos_data with
          | [] => (Finished, w1, rest, disk2)
          | _ :: _ =>
              match repository_names repos_data with
              | None => (Failed (Py.KeyError "name"), w1, rest, disk2)
              | Some repositories =>
                  match fetch_pull_requests rest w1 organization repositories with
                  | (Raised e, w2, rest') => (Failed e, w2, rest', disk2)
                  | (Starved, w2, rest') => (Stalled, w2, rest', disk2)
                  | (Returned pr_data, w2, rest') =>
                      (Finished, w2, rest',
                       save_df_as_json pr_data dir (pull_requests_file organization) disk2)
                  end
              end
          end
      end
  end.

End Values.

(** *** [data_transformation.py], lines 13-18: where the transformation
    reads, for the resolved path [file] of its script. *)
Definition INPUT_DIRECTORY (file : list string) : option (list string) :=
  root ← parents file 4; Some ((root ++ ["data"]) ++ ["input"]).

Definition REPO_DATA_PATH (file : list string) : option (list string) :=
  dir ← INPUT_DIRECTORY file; Some (dir ++ ["scytale_exercise_repositories.json"]).

Definition PR_DATA_PATH (file : list string) : option (list string) :=
  dir ← INPUT_DIRECTORY file; Some (dir ++ ["scytale_exercise_pull_requests.json"]).

(** The two scripts as the repository holds them, checked out at [root]. *)
Definition extraction_script (root : list string) : list string :=
  root ++ ["src"; "main"; "python"; "jobs"; "data_extraction.py"].

Definition transformation_script (root : list string) : list string :=
  root ++ ["src"; "main"; "python"; "jobs"; "data_transformation.py"].

End Harvest.

(** ** A sample organization: two repositories, pull requests for the
    first, a failure for the second.  The values of the records are
    strings, which an f-string renders as they are. *)
Module HarvestSamples.
Import DataExtraction Harvest.

Definition render (v : string) : string := v.

Definition repoA_record : gmap string string := {[ "name" := "repoA"; "id" := "1" ]}.
Definition repoB_record : gmap string string := {[ "name" := "repoB"; "id" := "2" ]}.
Definition nameless_record : gmap string string := {[ "id" := "3" ]}.

Definition pr1 : gmap string string := {[ "title" := "first"; "repository" := "elsewhere" ]}.
Definition pr2 : gmap string string := {[ "title" := "second" ]}.

Definition repos_page : Exchange (gmap string string) :=
  mkExchange 250000 (mkResponse 200 ∅ [repoA_record; repoB_record]).

Definition nameless_page : Exchange (gmap string string) :=
  mkExchange 250000 (mkResponse 200 ∅ [repoA_record; nameless_record]).

Definition prs_page : Exchange (gmap string string) :=
  mkExchange 250000 (mkResponse 200 ∅ [pr1; pr2]).

Definition not_found : Exchange (gmap string string) :=
  mkExchange 250000 (mkResponse 404 ∅ []).

Definition stale_quota : Exchange (gmap string string) :=
  mkExchange 250000
    (mkResponse 403
       (<[ "X-RateLimit-Remaining" := "0" ]> {[ "X-RateLimit-Reset" := "998" ]}) []).

Definition tagged : list (gmap string string) :=
  [ <[ "repository" := "repoA" ]> pr1; <[ "repository" := "repoA" ]> pr2 ].

Definition checkout : list string := ["home"; "dev"; "scytale"].

Definition input_dir : list string :=
  ["home"; "dev"; "scytale"; "src"; "main"; "data"; "input"].

Definition empty_disk : Disk (V:=string) := mkDisk ∅ ∅ [].

Definition world0 : World := mkWorld 1000400000 [].

End HarvestSamples.

Example split_links :
  Text.split ("<u2>; rel=" +:+ Py.quoted "next" +:+ ", <u9>; rel=" +:+ Py.quoted "last") ", "
  = ["<u2>; rel=" +:+ Py.quoted "next"; "<u9>; rel=" +:+ Py.quoted "last"].
Proof. reflexivity. Qed.

Example int_samples :
  Py.int "0" = Some 0 /\ Py.int " 1700000000 " = Some 1700000000 /\
  Py.int "-5" = Some (-5) /\ Py.int "1_000" = Some 1000 /\
  Py.int "abc" = None /\ Py.int "" = None /\ Py.int "1__0" = None /\ Py.int "5_" = None.
Proof. repeat split; reflexivity. Qed.

(** The parse of the [Link] header: the next link among several, no next
    link, no header, and a next link with an empty target, on which the
    loop stops. *)
Example next_url_samples :
  let page (hs : gmap string string) := DataExtraction.mkResponse 200 hs ([] : list Z) in
  DataExtraction.next_url
    (page {[ "Link" := "<https://h/r?page=1>; rel=" +:+ Py.quoted "prev" +:+
                       ", <https://h/r?page=3>; rel=" +:+ Py.quoted "next" +:+
                       ", <https://h/r?page=9>; rel=" +:+ Py.quoted "last" ]})
    = Some "https://h/r?page=3" ∧
  DataExtraction.next_url
    (page {[ "Link" := "<https://h/r?page=1>; rel=" +:+ Py.quoted "first" ]}) = None ∧
  DataExtraction.next_url (page ∅) = None ∧
  DataExtraction.next_url (page {[ "Link" := "<>; rel=" +:+ Py.quoted "next" ]})
    = Some EmptyString.
Proof. repeat split; vm_compute; reflexivity. Qed.

Example strip_samples :
  Py.strip (Py.strip_chars "<https://h/x?page=2>" "<>") = "https://h/x?page=2".
Proof. reflexivity. Qed.

(** ** The fetch loop, one iteration at a time *)
Section FetchLoop.
Import DataExtraction Sessions.
Context (os_sleep : Z → option Py.exn).
Context {A : Type}.
Implicit Types (x : Exchange A) (w : World) (u : string) (acc : list A).

Lemma fetch_loop_stop script w url acc :
  url_truthy url = false →
  fetch_loop os_sleep script w url acc = (Returned acc, w, script).
Proof.
  intros Hu. destruct script; destruct url as [u|]; simpl in *;
    try rewrite Hu; reflexivity.
Qed.

Lemma fetch_loop_page x rest w u acc :
  Py.truthy u = true →
  status_code (response x) = 200 →
  fetch_loop os_sleep (x :: rest) w (Some u) acc
  = fetch_loop os_sleep rest (do_request u x w) (next_url (response x))
      (acc ++ json (response x)).
Proof. intros Hu Hs. simpl. rewrite Hu, Hs. reflexivity. Qed.

Lemma quota_is_rate_limited (r : Response A) T :
  quota_exhausted r T → (status_code r =? 200) = false ∧ rate_limited r = inr true.
Proof.
  intros (Hs & (v & Hv & Hi) & _). unfold rate_limited.
  rewrite Hs, Hv, Hi. split; reflexivity.
Qed.

Lemma quota_sleep_time x w u T :
  quota_exhausted (response x) T →
  sleep_time (response x) (do_request u x w) = inr (wait_seconds (clock_us w) x T).
Proof.
  intros (_ & _ & (v & Hv & Hi)). unfold sleep_time. rewrite Hv, Hi. reflexivity.
Qed.

(** What [time.sleep] makes of a wait. *)
Lemma time_sleep_negative (secs : Z) :
  - sleep_bound ≤ secs < 0 → time_sleep os_sleep secs = Some Py.ValueError.
Proof.
  intros [Hlo Hhi]. unfold time_sleep, sleep_bound in *.
  repeat match goal with
         | |- context [?a <? ?b] => destruct (Z.ltb_spec a b)
         end; simpl; try done; lia.
Qed.

Lemma time_sleep_overflow (secs : Z) :
  secs < - sleep_bound ∨ sleep_bound < secs →
  time_sleep os_sleep secs = Some Py.OverflowError.
Proof.
  intros H. unfold time_sleep, sleep_bound in *.
  repeat match goal with
         | |- context [?a <? ?b] => destruct (Z.ltb_spec a b)
         end; simpl; try done; lia.
Qed.

Lemma time_sleep_below_zero (secs : Z) :
  secs < 0 →
  time_sleep os_sleep secs
  = Some (if secs <? - sleep_bound then Py.OverflowError else Py.ValueError).
Proof.
  intros H. destruct (Z.ltb_spec secs (- sleep_bound)) as [Hlo|Hlo].
  - apply time_sleep_overflow. by left.
  - apply time_sleep_negative. lia.
Qed.

Lemma time_sleep_returns (secs : Z) :
  time_sleep os_sleep secs = None → 0 ≤ secs ≤ sleep_bound ∧ os_sleep secs = None.
Proof.
  unfold time_sleep, sleep_bound.
  repeat match goal with
         | |- context [?a <? ?b] => destruct (Z.ltb_spec a b)
         end; simpl; try done; intros H; split; (done || lia).
Qed.

(** A quota exhaustion whose wait [time.sleep] accepts: print, sleep, and
    go round the loop with the same URL and the same records. *)
Lemma fetch_loop_quota x rest w u acc T :
  Py.truthy u = true →
  quota_exhausted (response x) T →
  time_sleep os_sleep (wait_seconds (clock_us w) x T) = None →
  fetch_loop os_sleep (x :: rest) w (Some u) acc
  = fetch_loop os_sleep rest
      (do_sleep (wait_seconds (clock_us w) x T)
         (emit (EvPrintRateLimit (wait_seconds (clock_us w) x T)) (do_request u x w)))
      (Some u) acc.
Proof.
  intros Hu Hq Hw. destruct (quota_is_rate_limited _ _ Hq) as [H200 Hrl].
  cbn [fetch_loop]. by rewrite Hu, H200, Hrl, (quota_sleep_time _ _ _ _ Hq), Hw.
Qed.

(** A quota exhaustion whose wait [time.sleep] refuses: the exception
    leaves the loop after the print. *)
Lemma fetch_loop_quota_refused x rest w u acc T (e : Py.exn) :
  Py.truthy u = true →
  quota_exhausted (response x) T →
  time_sleep os_sleep (wait_seconds (clock_us w) x T) = Some e →
  fetch_loop os_sleep (x :: rest) w (Some u) acc
  = (Raised e,
     emit (EvPrintRateLimit (wait_seconds (clock_us w) x T)) (do_request u x w),
     rest).
Proof.
  intros Hu Hq Hw. destruct (quota_is_rate_limited _ _ Hq) as [H200 Hrl].
  cbn [fetch_loop]. by rewrite Hu, H200, Hrl, (quota_sleep_time _ _ _ _ Hq), Hw.
Qed.

Lemma fetch_loop_failure x rest w u acc :
  Py.truthy u = true →
  terminal_failure (response x) →
  fetch_loop os_sleep (x :: rest) w (Some u) acc
  = (Returned acc, emit (EvPrintFailed u (status_code (response x))) (do_request u x w), rest).
Proof.
  intros Hu [H200 H403]. cbn [fetch_loop]. rewrite Hu.
  destruct (Z.eqb_spec (status_code (response x)) 200) as [|_]; [contradiction|].
  unfold rate_limited.
  destruct (Z.eqb_spec (status_code (response x)) 403) as [E|_]; [|reflexivity].
  destruct (headers (response x) !! "X-RateLimit-Remaining") as [v|] eqn:Hv;
    [|reflexivity].
  destruct (H403 E v eq_refl) as (n & -> & Hn).
  destruct (Z.eqb_spec n 0); [contradiction | reflexivity].
Qed.

(** After the wait the clock has passed second [T + 1]. *)
Lemma resume_clock_after_reset c x T :
  0 ≤ c + latency_us x →
  (T + 1) * us_per_second ≤ resume_clock c x T.
Proof.
  intros Hc. unfold resume_clock, wait_seconds, us_per_second in *.
  pose proof (Z.quot_rem' (c + latency_us x) 1000000) as Hqr.
  pose proof (Z.rem_nonneg (c + latency_us x) 1000000 ltac:(lia) Hc).
  lia.
Qed.

(** The log only grows. *)
Lemma fetch_loop_log_mono script : ∀ w url acc out w' rest,
  fetch_loop os_sleep script w url acc = (out, w', rest) → log w `prefix_of` log w'.
Proof.
  induction script as [|z script IH]; intros w url acc out w' rest Hrun.
  - destruct url as [v|]; simpl in Hrun; [destruct (Py.truthy v)|];
      simplify_eq; simpl; [by apply prefix_app_r | done | done].
  - destruct url as [v|]; cbn [fetch_loop] in Hrun; [|by simplify_eq].
    destruct (Py.truthy v); [|by simplify_eq].
    destruct (status_code (response z) =? 200).
    { apply IH in Hrun. etrans; [|done]. simpl. by apply prefix_app_r. }
    destruct (rate_limited (response z)) as [?|[]]; simplify_eq; simpl;
      [by apply prefix_app_r | | by rewrite <- (assoc (++)); apply prefix_app_r].
    destruct (sleep_time (response z) (do_request v z w)) as [?|secs];
      simplify_eq; simpl; [by apply prefix_app_r|].
    destruct (time_sleep os_sleep secs); simplify_eq; simpl.
    + rewrite <- (assoc (++)). by apply prefix_app_r.
    + apply IH in Hrun. etrans; [|done]. simpl.
      rewrite <- !(assoc (++)). by apply prefix_app_r.
Qed.

(** An iteration with a URL and a response at hand begins with the
    request for that URL. *)
Lemma fetch_loop_first_request y rest w u acc out w' rest' :
  Py.truthy u = true →
  fetch_loop os_sleep (y :: rest) w (Some u) acc = (out, w', rest') →
  (log w ++ [EvRequest u (clock_us w)]) `prefix_of` log w'.
Proof.
  intros Hu Hrun. cbn [fetch_loop] in Hrun. rewrite Hu in Hrun.
  change (log w ++ [EvRequest u (clock_us w)]) with (log (do_request u y w)).
  destruct (status_code (response y) =? 200).
  { by apply fetch_loop_log_mono in Hrun. }
  destruct (rate_limited (response y)) as [?|[]]; simplify_eq;
    [done | | by apply prefix_app_r].
  destruct (sleep_time (response y) (do_request u y w)) as [?|secs];
    simplify_eq; [done|].
  destruct (time_sleep os_sleep secs); simplify_eq; [by apply prefix_app_r|].
  apply fetch_loop_log_mono in Hrun. etrans; [|done]. simpl.
  by do 2 apply prefix_app_r.
Qed.

Lemma requested_app l1 l2 : requested (l1 ++ l2) = requested l1 ++ requested l2.
Proof. unfold requested. apply omap_app. Qed.

Lemma successful_pages_cons_ok x (used : list (Exchange A)) :
  status_code (response x) = 200 →
  successful_pages (x :: used) = json (response x) :: successful_pages used.
Proof.
  intros H. unfold successful_pages. by rewrite filter_cons_True.
Qed.

Lemma successful_pages_cons_other x (used : list (Exchange A)) :
  status_code (response x) ≠ 200 →
  successful_pages (x :: used) = successful_pages used.
Proof.
  intros H. unfold successful_pages. by rewrite filter_cons_False.
Qed.

(** The loop against a server that behaves as [serves] says. *)
Lemma fetch_loop_serves c u script pages urls e rest :
  serves os_sleep c u script pages urls e rest →
  ∀ w acc, clock_us w = c → Py.truthy u = true →
  ∃ w' used,
    fetch_loop os_sleep script w (Some u) acc = (Returned (acc ++ concat pages), w', rest) ∧
    script = used ++ rest ∧
    pages = successful_pages used ∧
    requested (log w') = requested (log w) ++ urls ∧
    length urls = length used ∧
    (e = Failed → ∃ u' st, last (log w') = Some (EvPrintFailed u' st)).
Proof.
  induction 1 as [c u x rest [H200 Hlast]
                 | c u u' x script pages urls e rest H200 Hn Hu' _ IH
                 | c u x T script pages urls e rest Hq Hwait _ IH
                 | c u x rest Hf];
    intros w acc Hc Hu.
  - exists (do_request u x w), [x].
    rewrite fetch_loop_page, fetch_loop_stop by done.
    rewrite successful_pages_cons_ok by done.
    simpl. rewrite app_nil_r, requested_app. simpl.
    split_and!; done.
  - assert (Py.truthy u' = true) as Hu'' by (by destruct u').
    destruct (IH (do_request u x w) (acc ++ json (response x)))
      as (w' & used & Hrun & -> & -> & Hlog & Hlen & Hend); [simpl; lia | done |].
    exists w', (x :: used).
    rewrite fetch_loop_page, Hn, Hrun by done.
    rewrite successful_pages_cons_ok by done.
    simpl in *. rewrite requested_app in Hlog. simpl in Hlog.
    rewrite <- !(assoc (++)) in Hlog. rewrite <- (assoc (++)).
    split_and!; [done | done | done | done | by f_equal | done].
  - subst c.
    destruct (IH (do_sleep (wait_seconds (clock_us w) x T)
                    (emit (EvPrintRateLimit (wait_seconds (clock_us w) x T))
                       (do_request u x w))) acc)
      as (w' & used & Hrun & -> & -> & Hlog & Hlen & Hend);
      [simpl; unfold resume_clock; lia | done |].
    exists w', (x :: used).
    rewrite (fetch_loop_quota _ _ _ _ _ T), Hrun by done.
    rewrite successful_pages_cons_other by (destruct Hq as [-> _]; done).
    simpl in *. rewrite !requested_app in Hlog. simpl in Hlog.
    rewrite !app_nil_r, <- !(assoc (++)) in Hlog.
    split_and!; [done | done | done | done | by f_equal | done].
  - exists (emit (EvPrintFailed u (status_code (response x))) (do_request u x w)), [x].
    rewrite fetch_loop_failure by done.
    rewrite successful_pages_cons_other by (by destruct Hf).
    simpl. rewrite app_nil_r, !requested_app. simpl. rewrite app_nil_r.
    split_and!; [done | done | done | done | done |].
    intros _. eexists _, _. by rewrite last_snoc.
Qed.

End FetchLoop.

(** ** Properties of [fetch_data] *)
Section FetchData.
Import DataExtraction Sessions.
Context (os_sleep : Z → option Py.exn).
Context {A : Type}.
Implicit Types (x : Exchange A) (w : World) (u : string) (acc : list A).


(** C6, as the code has it.  When the response sequence is K successful
    linked pages followed by a terminal failure (a status other than 200
    which, when it is 403, comes without remaining-quota header or with one
    that holds an integer other than zero), [fetch_data] returns the records
    of those K pages as an ordinary result, and the failing request is its
    last: one request per consumed response, each at the URL the chain
    names, the diagnostic print as the last event, and the responses after
    the failure left untouched. *)
Theorem fetch_data_partial_on_failure (script rest : list (Exchange A))
    (pages : list (list A)) (urls : list string) (clock : Z) (url : string) :
  url ≠ EmptyString →
  serves os_sleep clock url script pages urls Failed rest →
  ∃ w' used,
    fetch_data os_sleep script clock url = (Returned (concat pages), w', rest) ∧
    script = used ++ rest ∧
    pages = successful_pages used ∧
    requested (log w') = urls ∧
    length (requested (log w')) = length used ∧
    ∃ u' st, last (log w') = Some (EvPrintFailed u' st).
Proof.
  intros Hurl Hs.
  destruct (fetch_loop_serves _ _ _ _ _ _ _ _ Hs (start clock) [])
    as (w' & used & Hrun & Hsplit & Hpages & Hlog & Hlen & Hlast);
    [done | by destruct url |].
  exists w', used. simpl in Hlog.
  split_and!; [done | done | done | done | by rewrite Hlog | by apply Hlast].
Qed.

(** C8, as the code has it.  No clamp is applied to the wait: the
    computed [reset_time - int(time.time()) + 1] is printed and handed to
    [time.sleep] as it is, and whenever [time.sleep] accepts it the fetcher
    has slept for exactly that many seconds and goes round the loop with the
    same URL and records. *)
Theorem quota_wait_is_not_clamped x (rest : list (Exchange A)) w u acc (T : Z) :
  u ≠ EmptyString →
  quota_exhausted (response x) T →
  time_sleep os_sleep (T - (clock_us w + latency_us x) ÷ us_per_second + 1) = None →
  ∃ w2,
    fetch_loop os_sleep (x :: rest) w (Some u) acc = fetch_loop os_sleep rest w2 (Some u) acc ∧
    log w2 = log w ++
      [ EvRequest u (clock_us w);
        EvPrintRateLimit (T - (clock_us w + latency_us x) ÷ us_per_second + 1);
        EvSleep (T - (clock_us w + latency_us x) ÷ us_per_second + 1) ] ∧
    clock_us w2 = clock_us w + latency_us x +
      (T - (clock_us w + latency_us x) ÷ us_per_second + 1) * us_per_second.
Proof.
  intros Hu Hq Hwait. eexists. split.
  - apply (fetch_loop_quota _ _ _ _ _ _ T); [by destruct u | done | done].
  - simpl. rewrite <- !(assoc (++)). done.
Qed.

(** X3.  After a quota exhaustion whose wait [time.sleep] accepts, the
    next request goes to the same URL and is issued no earlier than second
    [T + 1]. *)
Lemma retry_same_url_after_reset x y (rest : list (Exchange A)) w u acc (T : Z) :
  u ≠ EmptyString →
  0 ≤ clock_us w + latency_us x →
  quota_exhausted (response x) T →
  time_sleep os_sleep (wait_seconds (clock_us w) x T) = None →
  (T + 1) * us_per_second ≤ resume_clock (clock_us w) x T ∧
  ∀ out w3 rest',
    fetch_loop os_sleep (x :: y :: rest) w (Some u) acc = (out, w3, rest') →
    (log w ++ [ EvRequest u (clock_us w);
                EvPrintRateLimit (wait_seconds (clock_us w) x T);
                EvSleep (wait_seconds (clock_us w) x T);
                EvRequest u (resume_clock (clock_us w) x T) ])
    `prefix_of` log w3.
Proof.
  intros Hu Hc Hq Hwait. split.
  - by apply resume_clock_after_reset.
  - intros out w3 rest' Hrun.
    rewrite (fetch_loop_quota _ _ _ _ _ _ T) in Hrun by (done || by destruct u).
    apply fetch_loop_first_request in Hrun; [|by destruct u].
    simpl in Hrun. rewrite <- !(assoc (++)) in Hrun. exact Hrun.
Qed.

End FetchData.

(** ** [fetch_data] on the sample servers *)
Section FetchDataSamples.
Import DataExtraction Sessions Samples.

Lemma page1_links_to_page2 : page_with_next (response page1).
Proof.
  split; [reflexivity|]. exists page2_url.
  split; [vm_compute; reflexivity | discriminate].
Defined.


Lemma quota_sample (reset : string) (T : Z) :
  Py.int reset = Some T → quota_exhausted (response (quota reset)) T.
Proof.
  intros HT. split; [reflexivity|]. split.
  - exists "0". split; vm_compute; reflexivity.
  - exists reset. split; [|exact HT].
    unfold quota. cbn [response headers].
    rewrite lookup_insert_ne by discriminate. apply lookup_singleton_eq.
Defined.

Lemma server_error_is_terminal : terminal_failure (response server_error).
Proof. split; [discriminate|]. intros H; discriminate H. Defined.


(** One page, then a server error. *)
Lemma sample_failure :
  serves sample_sleep clock0 seed [page1; server_error; page2] [[11; 12]]
    [seed; page2_url] Failed [page2].
Proof.
  apply (serves_next _ _ _ page2_url); [reflexivity | by vm_compute | discriminate |].
  apply serves_failure. exact server_error_is_terminal.
Defined.


Lemma fetch_data_partial_on_failure_sample :
  ∃ w' used,
    fetch_data sample_sleep [page1; server_error; page2] clock0 seed
      = (Returned (concat [[11; 12]]), w', [page2]) ∧
    [page1; server_error; page2] = used ++ [page2] ∧
    [[11; 12]] = successful_pages used ∧
    requested (log w') = [seed; page2_url] ∧
    length (requested (log w')) = length used ∧
    ∃ u' st, last (log w') = Some (EvPrintFailed u' st).
Proof.
  apply (fetch_data_partial_on_failure sample_sleep [page1; server_error; page2] [page2]
           [[11; 12]] [seed; page2_url] clock0 seed);
    [discriminate | exact sample_failure].
Defined.

(** C6 as stated fails.  After page 1, a 403 whose remaining-quota header
    holds the word [none] is a response other than 200 and no zero-quota
    403; on it [int] raises [ValueError], which leaves [fetch_data]: the
    records of page 1 are not returned. *)
Lemma garbled_403_is_no_partial_result :
  status_code (response EdgeSamples.forbidden_garbled) ≠ 200 ∧
  (∀ T, ¬ quota_exhausted (response EdgeSamples.forbidden_garbled) T) ∧
  fetch_data sample_sleep [page1; EdgeSamples.forbidden_garbled; page2] clock0 seed
  = (Raised Py.ValueError,
     {| clock_us := 1000900000;
        log := [ EvRequest seed 1000400000; EvRequest page2_url 1000650000 ] |},
     [page2]).
Proof.
  split_and!.
  - discriminate.
  - intros T (_ & (v & Hv & Hi) & _). vm_compute in Hv. simplify_eq.
  - vm_compute. reflexivity.
Qed.

Lemma quota_wait_is_not_clamped_sample :
  ∃ w2,
    fetch_loop sample_sleep [quota "1002"; page2] (start clock0) (Some seed) [11; 12]
      = fetch_loop sample_sleep [page2] w2 (Some seed) [11; 12] ∧
    log w2 = [EvRequest seed clock0; EvPrintRateLimit 3; EvSleep 3] ∧
    clock_us w2 = 1003650000.
Proof.
  apply (quota_wait_is_not_clamped sample_sleep (quota "1002") [page2] (start clock0) seed
           [11; 12] 1002);
    [discriminate | by apply quota_sample | by vm_compute].
Defined.

(** C4 at the input on which the code departs from it.  The quota
    exhaustion for page 2 names reset second 998 and is read at second
    1000: the computed wait is -1, [time.sleep] raises [ValueError], and
    the exception leaves [fetch_data]: no retry is issued and the records
    of page 1 are not returned.  This is so on every platform. *)
Theorem stale_reset_aborts_fetch (os_sleep : Z → option Py.exn) :
  fetch_data os_sleep [page1; quota "998"; page2] clock0 seed
  = (Raised Py.ValueError,
     {| clock_us := 1000900000;
        log := [ EvRequest seed 1000400000;
                 EvRequest page2_url 1000650000;
                 EvPrintRateLimit (-1) ] |},
     [page2]).
Proof. vm_compute. reflexivity. Qed.

(** C8 as stated fails.  With reset second 998 read at second 1000 the
    computed wait of -1 is handed to [time.sleep] as it is: the call raises
    [ValueError] and nothing is slept.  With reset second 99999999999 the
    computed wait of 99999999000 seconds is handed over as it is, too: the
    call raises [OverflowError], and nothing is slept either. *)
Lemma wait_handed_to_sleep_unclamped :
  (fetch_data sample_sleep [page1; quota "998"; page2] clock0 seed).1.1
    = Raised Py.ValueError ∧
  slept (log (fetch_data sample_sleep [page1; quota "998"; page2] clock0 seed).1.2) = [] ∧
  fetch_data sample_sleep [page1; quota "99999999999"; page2] clock0 seed
  = (Raised Py.OverflowError,
     {| clock_us := 1000900000;
        log := [ EvRequest seed 1000400000;
                 EvRequest page2_url 1000650000;
                 EvPrintRateLimit 99999999000 ] |},
     [page2]).
Proof. split_and!; vm_compute; reflexivity. Qed.

End FetchDataSamples.

(** ** Substrings and lower-casing *)
Section TextFacts.
Implicit Types (s t : string) (c : ascii).

Lemma app_cons c s t : String c s +:+ t = String c (s +:+ t).
Proof. reflexivity. Qed.

Lemma app_empty_l s : EmptyString +:+ s = s.
Proof. reflexivity. Qed.

Lemma startswith_spec s t :
  Text.startswith s t = true ↔ ∃ post, s = t +:+ post.
Proof.
  revert s. induction t as [|a t IH]; intros s.
  - split; [intros _; by exists s | by destruct s].
  - destruct s as [|b s]; simpl.
    + split; [done | intros [post H]; discriminate H].
    + destruct (decide (a = b)) as [->|Hne].
      * rewrite IH. split; intros [post H]; exists post.
        -- by rewrite app_cons, H.
        -- rewrite app_cons in H. by simplify_eq.
      * split; [done | intros [post H]]. rewrite app_cons in H. by simplify_eq.
Qed.

Lemma contains_spec s t :
  Text.contains s t = true ↔ ∃ pre post, s = pre +:+ t +:+ post.
Proof.
  induction s as [|a s IH]; cbn [Text.contains].
  - rewrite orb_false_r, startswith_spec. split.
    + intros [post H]. by exists EmptyString, post.
    + intros (pre & post & H). destruct pre; [by exists post|discriminate H].
  - rewrite orb_true_iff, startswith_spec, IH. split.
    + intros [[post H]|(pre & post & H)].
      * by exists EmptyString, post.
      * exists (String a pre), post. by rewrite app_cons, H.
    + intros (pre & post & H). destruct pre as [|b pre].
      * left. by exists post.
      * right. exists pre, post. rewrite app_cons in H. by simplify_eq.
Qed.

Lemma lower_app s t : Text.lower (s +:+ t) = Text.lower s +:+ Text.lower t.
Proof.
  induction s as [|a s IH]; [done|].
  rewrite app_cons. simpl. by rewrite IH, app_cons.
Qed.

(** A split of the lower-cased string is the lower-casing of a split. *)
Lemma lower_split s a b :
  Text.lower s = a +:+ b →
  ∃ a' b', s = a' +:+ b' ∧ Text.lower a' = a ∧ Text.lower b' = b.
Proof.
  revert s. induction a as [|c a IH]; intros s H.
  - by exists EmptyString, s.
  - destruct s as [|c' s]; [discriminate H|].
    rewrite app_cons in H. simpl in H. simplify_eq.
    destruct (IH s) as (a' & b' & -> & <- & <-); [done|].
    by exists (String c' a'), b'.
Qed.

(** Spark's [lower(s).contains(t)], for a lower-case [t], is occurrence
    when case is ignored. *)
Lemma lower_contains_spec s t :
  Text.lower t = t →
  Text.contains (Text.lower s) t = true ↔ Scenarios.occurs_ignoring_case t s.
Proof.
  intros Ht. rewrite contains_spec. unfold Scenarios.occurs_ignoring_case. split.
  - intros (pre & post & H).
    apply lower_split in H as (pre' & rest & -> & Hpre & H).
    apply lower_split in H as (mid & post' & -> & Hmid & Hpost).
    exists pre', mid, post'. by rewrite Hmid, Ht.
  - intros (pre & mid & post & -> & H).
    exists (Text.lower pre), (Text.lower post).
    by rewrite !lower_app, H, Ht.
Qed.

End TextFacts.

(** ** The aggregate functions *)
Section SqlFacts.
Import DataTransformation Scenarios.

Lemma foldl_add a l : foldl Z.add a l = a + foldr Z.add 0 l.
Proof. revert a. induction l as [|b l IH]; intros a; simpl; [lia|]. rewrite IH. lia. Qed.

Lemma present_merged_case group :
  Sql.present (merged_case <$> group) = merged_indicator <$> group.
Proof.
  induction group as [|pr group IH]; [done|].
  unfold Sql.present in *. cbn [fmap list_fmap omap list_omap].
  rewrite IH. unfold merged_case, merged_indicator. by destruct (pr_merged_at pr).
Qed.

Lemma sum_merged_indicator group :
  foldr Z.add 0 (merged_indicator <$> group) = Z.of_nat (length (merged_prs group)).
Proof.
  induction group as [|pr group IH]; [done|].
  unfold merged_prs in *. cbn [fmap list_fmap foldr]. rewrite IH.
  unfold merged_indicator. destruct (pr_merged_at pr) as [t|] eqn:Ht.
  - rewrite filter_cons_True by (by rewrite Ht). simpl length. lia.
  - rewrite filter_cons_False by (rewrite Ht; by intros [? ?]). lia.
Qed.

(** [SUM(CASE WHEN merged_at IS NOT NULL THEN 1 ELSE 0 END)] over a group
    that has a row is the number of rows with a merge timestamp. *)
Lemma sum_merged_case group :
  group ≠ [] →
  Sql.sum (merged_case <$> group) = Some (Z.of_nat (length (merged_prs group))).
Proof.
  intros Hne. unfold Sql.sum. rewrite present_merged_case.
  rewrite <- sum_merged_indicator.
  destruct group as [|pr group]; [done|].
  cbn [fmap list_fmap foldr]. by rewrite foldl_add.
Qed.

Lemma greater_ge_l a b : (a ≤ Sql.greater a b)%string.
Proof.
  unfold Sql.greater. destruct (String.leb a b) eqn:H; [|done].
  unfold String.le. by rewrite H.
Qed.

Lemma greater_ge_r a b : (b ≤ Sql.greater a b)%string.
Proof.
  unfold Sql.greater. destruct (String.leb a b) eqn:H; [done|].
  destruct (total String.le a b) as [Hab|Hba]; [|done].
  unfold String.le in Hab. by rewrite H in Hab.
Qed.

Lemma greater_cases a b : Sql.greater a b = a ∨ Sql.greater a b = b.
Proof. unfold Sql.greater. destruct (String.leb a b); auto. Qed.

Lemma foldl_greater x xs :
  foldl Sql.greater x xs ∈ x :: xs ∧
  ∀ v, v ∈ x :: xs → (v ≤ foldl Sql.greater x xs)%string.
Proof.
  revert x. induction xs as [|y ys IH]; intros x; simpl.
  - split; [left|]. intros v ->%list_elem_of_singleton. done.
  - destruct (IH (Sql.greater x y)) as [Hin Hmax]. split.
    + apply elem_of_cons in Hin as [->|Hin].
      * destruct (greater_cases x y) as [-> | ->]; [left | right; left].
      * by do 2 right.
    + intros v [->|[->|Hv]%elem_of_cons]%elem_of_cons.
      * etrans; [apply greater_ge_l|]. apply Hmax. left.
      * etrans; [apply greater_ge_r|]. apply Hmax. left.
      * apply Hmax. by right.
Qed.

(** [MAX]: NULL when nothing is present, else the greatest present value. *)
Lemma max_spec vs :
  match Sql.max vs with
  | None => Sql.present vs = []
  | Some m => m ∈ Sql.present vs ∧ ∀ v, v ∈ Sql.present vs → (v ≤ m)%string
  end.
Proof.
  unfold Sql.max. destruct (Sql.present vs) as [|x xs]; [done|].
  apply foldl_greater.
Qed.

Lemma elem_of_present_merged_at (group : list PullRequest) t :
  t ∈ Sql.present (pr_merged_at <$> group) ↔
  ∃ pr, pr ∈ group ∧ pr_merged_at pr = Some t.
Proof.
  unfold Sql.present. rewrite list_elem_of_omap. split.
  - intros (v & (pr & -> & Hpr)%list_elem_of_fmap & Hv). by exists pr.
  - intros (pr & Hpr & Ht). exists (Some t). split; [|done].
    apply list_elem_of_fmap. by exists pr.
Qed.

End SqlFacts.

(** ** Grouping and joining *)
Section Tables.
Import DataTransformation Scenarios.
Implicit Types (prs : list PullRequest) (repos : list Repository)
  (a : PullRequestAggregate) (r : RepositorySummary) (j : Joined) (key : option Z).

Lemma elem_of_group_keys prs key :
  key ∈ group_keys prs ↔ ∃ pr, pr ∈ prs ∧ head_repo_id pr = key.
Proof.
  unfold group_keys. rewrite elem_of_remove_dups, list_elem_of_fmap.
  split; intros (pr & ? & ?); by exists pr.
Qed.

Lemma group_rows_nonempty prs key : key ∈ group_keys prs → group_rows key prs ≠ [].
Proof.
  intros (pr & Hpr & Hkey)%elem_of_group_keys Hnil.
  by apply (filter_nil_not_elem_of _ _ pr Hnil Hkey).
Qed.

Lemma elem_of_pr_aggregated_df prs a :
  a ∈ pr_aggregated_df prs ↔
  agg_repository_id a ∈ group_keys prs ∧ a = aggregate_group prs (agg_repository_id a).
Proof.
  unfold pr_aggregated_df. rewrite list_elem_of_fmap. split.
  - intros (key & -> & Hkey). done.
  - intros [Hkey Ha]. by exists (agg_repository_id a).
Qed.

Lemma pr_aggregated_df_keys prs :
  agg_repository_id <$> pr_aggregated_df prs = group_keys prs.
Proof.
  unfold pr_aggregated_df. rewrite <- list_fmap_compose. apply list_fmap_id.
Qed.

Lemma elem_of_join_row a r j :
  j ∈ join_row a r ↔
  agg_repository_id a = Some (j_repository_id j) ∧
  rs_repository_id r = Some (j_repository_id j) ∧
  j = {| j_repository_id := j_repository_id j;
         j_num_prs := agg_num_prs a;
         j_num_prs_merged := agg_num_prs_merged a;
         j_merged_at := agg_merged_at a;
         j_organization_name := rs_organization_name r;
         j_repository_name := rs_repository_name r;
         j_repository_owner := rs_repository_owner r |}.
Proof.
  unfold join_row.
  destruct (agg_repository_id a) as [x|], (rs_repository_id r) as [y|];
    try (split; [by intros ?%elem_of_nil | by intros (? & ? & ?)]).
  destruct (decide (x = y)) as [->|Hne].
  - rewrite list_elem_of_singleton. split.
    + intros ->. done.
    + intros (Hx & _ & ->). by simplify_eq.
  - split; [by intros ?%elem_of_nil | intros (? & ? & ?); congruence].
Qed.

Lemma elem_of_joined_df (aggs : list PullRequestAggregate)
    (summaries : list RepositorySummary) j :
  j ∈ joined_df aggs summaries ↔
  ∃ a r, a ∈ aggs ∧ r ∈ summaries ∧ j ∈ join_row a r.
Proof.
  unfold joined_df. rewrite list_elem_of_bind. split.
  - intros (a & (r & Hj & Hr)%list_elem_of_bind & Ha). by exists a, r.
  - intros (a & r & Ha & Hr & Hj). exists a. split; [|done].
    apply list_elem_of_bind. by exists r.
Qed.

Lemma elem_of_final_df repos prs (row : ComplianceRecord) :
  row ∈ final_df repos prs ↔
  ∃ a r j, a ∈ pr_aggregated_df prs ∧ r ∈ repo_filtered_df repos ∧
           j ∈ join_row a r ∧ row = select_final j.
Proof.
  unfold final_df. rewrite list_elem_of_fmap. split.
  - intros (j & -> & (a & r & ? & ? & ?)%elem_of_joined_df). by exists a, r, j.
  - intros (a & r & j & ? & ? & ? & ->). exists j. split; [done|].
    apply elem_of_joined_df. by exists a, r.
Qed.

End Tables.

(** ** Properties of the aggregation *)
Section Aggregation.
Import DataTransformation Scenarios.
Implicit Types (prs : list PullRequest) (repos : list Repository)
  (a : PullRequestAggregate) (key : option Z).

Lemma group_rows_retag tag key prs :
  group_rows key (retag tag <$> prs) = retag tag <$> group_rows key prs.
Proof.
  unfold group_rows. induction prs as [|pr prs IH]; [done|].
  cbn [fmap list_fmap]. rewrite !filter_cons. simpl. rewrite IH.
  by destruct (decide (head_repo_id pr = key)).
Qed.

Lemma aggregate_group_retag tag key prs :
  aggregate_group (retag tag <$> prs) key = aggregate_group prs key.
Proof.
  unfold aggregate_group. rewrite group_rows_retag. unfold Sql.count_star.
  rewrite length_fmap, <- !list_fmap_compose. done.
Qed.

(** C5.  The aggregation has exactly one row per distinct [head.repo.id]
    among the pull requests (NULL counting as an identifier of its own).
    The row of an identifier counts the pull requests that carry it, counts
    those of them with a merge timestamp, and holds the greatest of their
    merge timestamps, or NULL when none has one.  The [repository] tag plays
    no part: retagging the pull requests leaves the aggregation as it is. *)
Theorem pr_aggregation_groups_by_head_repo_id prs :
  NoDup (agg_repository_id <$> pr_aggregated_df prs) ∧
  (∀ key, key ∈ (agg_repository_id <$> pr_aggregated_df prs) ↔
          ∃ pr, pr ∈ prs ∧ head_repo_id pr = key) ∧
  Forall (fun a =>
    let group := filter (fun pr => head_repo_id pr = agg_repository_id a) prs in
    agg_num_prs a = Z.of_nat (length group) ∧
    agg_num_prs_merged a = Some (Z.of_nat (length (merged_prs group))) ∧
    match agg_merged_at a with
    | Some m =>
        (∃ pr, pr ∈ group ∧ pr_merged_at pr = Some m) ∧
        ∀ pr t, pr ∈ group → pr_merged_at pr = Some t → (t ≤ m)%string
    | None => ∀ pr, pr ∈ group → pr_merged_at pr = None
    end) (pr_aggregated_df prs) ∧
  ∀ tag, pr_aggregated_df (retag tag <$> prs) = pr_aggregated_df prs.
Proof.
  split_and!.
  - rewrite pr_aggregated_df_keys. apply NoDup_remove_dups.
  - intros key. rewrite pr_aggregated_df_keys. apply elem_of_group_keys.
  - apply Forall_forall. intros a [Hkey Ha]%elem_of_pr_aggregated_df.
    set (k := agg_repository_id a) in *. rewrite Ha. cbn -[filter].
    fold (group_rows k prs). split_and!.
    + done.
    + by apply sum_merged_case, group_rows_nonempty.
    + pose proof (max_spec (pr_merged_at <$> group_rows k prs)) as Hmax.
      destruct (Sql.max (pr_merged_at <$> group_rows k prs)) as [m|].
      * destruct Hmax as [Hin Hle]. split.
        -- by apply elem_of_present_merged_at.
        -- intros pr t Hpr Ht. apply Hle, elem_of_present_merged_at. by exists pr.
      * intros pr Hpr. destruct (pr_merged_at pr) as [t|] eqn:Ht; [|done].
        assert (t ∈ Sql.present (pr_merged_at <$> group_rows k prs)) as Hin
          by (apply elem_of_present_merged_at; by exists pr).
        rewrite Hmax in Hin. by apply elem_of_nil in Hin.
  - intros tag. unfold pr_aggregated_df, group_keys.
    rewrite <- list_fmap_compose.
    apply list_fmap_ext. intros _ key _. apply aggregate_group_retag.
Qed.

(** C9.  In every row of the aggregation the number of merged pull
    requests is a number, not NULL, and is at most the number of pull
    requests. *)
Theorem num_prs_merged_le_num_prs prs a :
  a ∈ pr_aggregated_df prs →
  ∃ merged, agg_num_prs_merged a = Some merged ∧ 0 ≤ merged ≤ agg_num_prs a.
Proof.
  intros [Hkey Ha]%elem_of_pr_aggregated_df. rewrite Ha. cbn.
  rewrite sum_merged_case by (by apply group_rows_nonempty).
  eexists. split; [done|]. unfold Sql.count_star, merged_prs.
  pose proof (length_filter (fun pr => is_Some (pr_merged_at pr))
                (group_rows (agg_repository_id a) prs)). lia.
Qed.

End Aggregation.

(** ** Properties of the join and of the classification *)
Section Pipeline.
Import DataTransformation Scenarios.
Implicit Types (prs : list PullRequest) (repos : list Repository)
  (a : PullRequestAggregate) (r : RepositorySummary) (j : Joined) (key : option Z).

(** C3.  The join is inner on [repository_id].  For any two tables, a
    joined row with identifier [id] exists exactly when both tables have a
    row with that identifier; and so the final data frame has a row for
    [id] exactly when some pull request carries [id] as its head
    repository and some repository has [id].  An identifier on one side
    only yields no row. *)
Theorem join_is_inner (aggs : list PullRequestAggregate)
    (summaries : list RepositorySummary) repos prs (id : Z) :
  ((∃ j, j ∈ joined_df aggs summaries ∧ j_repository_id j = id) ↔
   (∃ a, a ∈ aggs ∧ agg_repository_id a = Some id) ∧
   (∃ r, r ∈ summaries ∧ rs_repository_id r = Some id)) ∧
  ((∃ row, row ∈ final_df repos prs ∧ repository_id row = id) ↔
   (∃ pr, pr ∈ prs ∧ head_repo_id pr = Some id) ∧
   (∃ repo, repo ∈ repos ∧ repo_id repo = Some id)).
Proof.
  assert (∀ aggs' summaries',
    (∃ j, j ∈ joined_df aggs' summaries' ∧ j_repository_id j = id) ↔
    (∃ a, a ∈ aggs' ∧ agg_repository_id a = Some id) ∧
    (∃ r, r ∈ summaries' ∧ rs_repository_id r = Some id)) as Hjoin.
  { intros aggs' summaries'. split.
    - intros (j & (a & r & Ha & Hr & (Hida & Hidr & _)%elem_of_join_row)%elem_of_joined_df & <-).
      split; [by exists a | by exists r].
    - intros [(a & Ha & Hida) (r & Hr & Hidr)].
      eexists {| j_repository_id := id |}. split; [|done].
      apply elem_of_joined_df. exists a, r. split_and!; [done..|].
      apply elem_of_join_row. by split_and!. }
  split; [apply Hjoin|].
  unfold final_df. split.
  - intros (row & (j & -> & Hj)%list_elem_of_fmap & Hid).
    destruct (Hjoin (pr_aggregated_df prs) (repo_filtered_df repos)) as [Hfwd _].
    destruct Hfwd as [(a & Ha & Hida) (r & Hr & Hidr)]; [by exists j|]. split.
    + apply elem_of_pr_aggregated_df in Ha as [Hkey _].
      rewrite Hida in Hkey. by apply elem_of_group_keys.
    + apply list_elem_of_fmap in Hr as (repo & -> & Hrepo). by exists repo.
  - intros [(pr & Hpr & Hidp) (repo & Hrepo & Hidr)].
    destruct (Hjoin (pr_aggregated_df prs) (repo_filtered_df repos)) as [_ Hbwd].
    destruct Hbwd as (j & Hj & Hid).
    + split.
      * exists (aggregate_group prs (Some id)). split; [|done].
        apply elem_of_pr_aggregated_df. split; [|done].
        apply elem_of_group_keys. by exists pr.
      * eexists. split; [apply list_elem_of_fmap_2, Hrepo | done].
    + exists (select_final j). split; [by apply list_elem_of_fmap_2 | done].
Qed.

Lemma remove_dups_filter {X} `{EqDecision X} (P : X → Prop) `{!∀ x, Decision (P x)}
    (l : list X) :
  remove_dups (filter P l) = filter P (remove_dups l).
Proof.
  induction l as [|x l IH]; [done|]. cbn [remove_dups].
  destruct (decide (P x)) as [HP|HP].
  - rewrite filter_cons_True by done. cbn [remove_dups].
    destruct (decide_rel (∈) x l) as [Hin|Hin],
             (decide_rel (∈) x (filter P l)) as [Hin'|Hin'].
    + done.
    + destruct Hin'. by apply list_elem_of_filter.
    + by apply list_elem_of_filter in Hin' as [_ ?].
    + rewrite filter_cons_True by done. by rewrite IH.
  - rewrite filter_cons_False by done.
    destruct (decide_rel (∈) x l); [done|].
    by rewrite filter_cons_False.
Qed.

Lemma group_keys_with_id prs :
  group_keys (filter (fun pr => is_Some (head_repo_id pr)) prs)
  = filter is_Some (group_keys prs).
Proof.
  unfold group_keys. rewrite <- remove_dups_filter. f_equal.
  induction prs as [|pr prs IH]; [done|].
  cbn [fmap list_fmap]. rewrite !filter_cons. cbn [fmap list_fmap] in IH.
  destruct (decide (is_Some (head_repo_id pr))); cbn [fmap list_fmap]; by rewrite IH.
Qed.

Lemma aggregate_group_with_id prs (id : Z) :
  aggregate_group (filter (fun pr => is_Some (head_repo_id pr)) prs) (Some id)
  = aggregate_group prs (Some id).
Proof.
  unfold aggregate_group, group_rows.
  rewrite list_filter_filter_l; [done|]. intros pr ->. by eexists.
Qed.

Lemma join_null_key prs (summaries : list RepositorySummary) :
  summaries ≫= join_row (aggregate_group prs None) = [].
Proof. induction summaries as [|r summaries IH]; [done|]. by rewrite bind_cons, IH. Qed.

(** In a frame whose schema has the column, a pull request with a NULL
    [head.repo.id] is grouped with the others of its kind into the row of
    the NULL key, which counts them.  That row joins with nothing, and the
    final data frame is the one computed when the pull requests without
    identifier are left out beforehand. *)
Lemma null_key_group_joins_nothing repos prs (pr : PullRequest) :
  pr ∈ prs →
  head_repo_id pr = None →
  (∃ a, a ∈ pr_aggregated_df prs ∧
        agg_repository_id a = None ∧
        agg_num_prs a
          = Z.of_nat (length (filter (fun pr' => head_repo_id pr' = None) prs)) ∧
        ∀ a', a' ∈ pr_aggregated_df prs → agg_repository_id a' = None → a' = a) ∧
  (∀ a r, agg_repository_id a = None → join_row a r = []) ∧
  final_df repos prs
    = final_df repos (filter (fun pr' => is_Some (head_repo_id pr')) prs).
Proof.
  intros Hpr Hnull. split_and!.
  - exists (aggregate_group prs None). split_and!; [|reflexivity| |].
    + apply elem_of_pr_aggregated_df. split; [|done].
      apply elem_of_group_keys. by exists pr.
    + cbn. unfold Sql.count_star, group_rows. do 2 f_equal.
      by apply list_filter_iff.
    + intros a' [_ Ha]%elem_of_pr_aggregated_df Hkey. rewrite Ha. by rewrite Hkey.
  - intros a r Hkey. unfold join_row. by rewrite Hkey.
  - unfold final_df, joined_df, pr_aggregated_df. f_equal.
    rewrite group_keys_with_id.
    induction (group_keys prs) as [|[id|] keys IH]; [done| |].
    + rewrite filter_cons_True by (by eexists).
      cbn [fmap list_fmap]. rewrite !bind_cons, IH.
      by rewrite aggregate_group_with_id.
    + rewrite filter_cons_False by (by intros [? ?]).
      cbn [fmap list_fmap]. rewrite bind_cons, IH.
      by rewrite join_null_key.
Qed.

(** C1.  In every row of the final data frame, [is_compliant] is true
    exactly when the number of merged pull requests equals the number of
    pull requests and the owner is present and contains [scytale] when case
    is ignored.  It is false in every other case, a missing owner among
    them. *)
Theorem is_compliant_iff repos prs (row : ComplianceRecord) :
  row ∈ final_df repos prs →
  (is_compliant row = true ↔
     num_prs_merged row = Some (num_prs row) ∧
     ∃ owner, repository_owner row = Some owner ∧
              occurs_ignoring_case "scytale" owner) ∧
  (is_compliant row = false ↔
     ¬ (num_prs_merged row = Some (num_prs row) ∧
        ∃ owner, repository_owner row = Some owner ∧
                 occurs_ignoring_case "scytale" owner)) ∧
  (repository_owner row = None → is_compliant row = false).
Proof.
  intros (a & r & j & _ & _ & _ & ->)%elem_of_final_df.
  assert (compliant j = true ↔
          j_num_prs_merged j = Some (j_num_prs j) ∧
          ∃ owner, j_repository_owner j = Some owner ∧
                   occurs_ignoring_case "scytale" owner) as Hiff.
  { unfold compliant, Sql.eq, Sql.lower, Sql.contains.
    destruct (j_num_prs_merged j) as [m|], (j_repository_owner j) as [owner|]; simpl.
    - destruct (Z.eqb_spec (j_num_prs j) m) as [->|Hne];
        destruct (Text.contains (Text.lower owner) "scytale") eqn:Hc; simpl.
      + apply lower_contains_spec in Hc; [|done]. split; [|done].
        intros _. split; [done|]. by exists owner.
      + split; [done|]. intros [_ (owner' & [= <-] & Hocc)].
        apply lower_contains_spec in Hocc; [|done]. congruence.
      + split; [done|]. intros [[= ->] _]. done.
      + split; [done|]. intros [[= ->] _]. done.
    - destruct (j_num_prs j =? m); simpl; (split; [done|]);
        by intros [_ (? & ? & _)].
    - destruct (Text.contains (Text.lower owner) "scytale"); simpl;
        (split; [done|]); by intros [? _].
    - split; [done|]. by intros [? _]. }
  cbn [is_compliant num_prs_merged num_prs repository_owner select_final].
  split_and!.
  - exact Hiff.
  - rewrite <- Hiff. by destruct (compliant j).
  - intros Hnone. destruct (compliant j); [|done].
    destruct Hiff as [Hfwd _]. destruct Hfwd as [_ (owner & Ho & _)]; [done|].
    congruence.
Qed.

(** The final [select] resolves against the columns of the join and the
    added [is_compliant], and every row of the final data frame, before it
    is written, has its eight columns, in its order: the four of the
    repository summary, the three aggregates and [is_compliant].  They are
    all the columns there are: the select drops none. *)
Lemma final_cells_columns (j : Joined) :
  final_cells j = Some (columns (select_final j)) ∧
  (columns (select_final j)).*1
  = [ "organization_name"; "repository_id"; "repository_name"; "repository_owner";
      "num_prs"; "num_prs_merged"; "merged_at"; "is_compliant" ] ∧
  columns (select_final j)
  ≡ₚ withColumn "is_compliant" (CBool (compliant j)) (joined_cells j).
Proof.
  destruct j as [id n m t org name owner]. split_and!.
  - vm_compute. reflexivity.
  - reflexivity.
  - unfold withColumn. destruct (decide _) as [Hin|_].
    + exfalso. cbn in Hin.
      repeat (apply elem_of_cons in Hin as [Hin|Hin]; [discriminate Hin|]).
      by apply elem_of_nil in Hin.
    + cbn.
      apply (Permutation_cons_app
               [("repository_id", CLong id); ("num_prs", CLong n);
                ("num_prs_merged", cell_long m); ("merged_at", cell_string t)]).
      cbn. apply perm_skip.
      apply (Permutation_cons_app
               [("num_prs", CLong n); ("num_prs_merged", cell_long m);
                ("merged_at", cell_string t)]).
      cbn.
      apply (Permutation_cons_app
               [("num_prs", CLong n); ("num_prs_merged", cell_long m);
                ("merged_at", cell_string t)]).
      reflexivity.
Qed.

End Pipeline.

(** ** The data set written, and the columns read *)
Section Output.
Import DataTransformation SparkRead Expected.
Context (partition_value : Cell → string).
Implicit Types (repos : list Repository) (prs : list PullRequest)
  (row : ComplianceRecord) (out : Dataset) (d : string)
  (rec : list (string * Cell)) (recs : list (list (string * Cell)))
  (parts : list (string * list (string * Cell))).

Lemma final_frame_columns repos prs :
  final_frame repos prs = Some (columns <$> final_df repos prs).
Proof.
  unfold final_frame, final_df.
  induction (joined_df (pr_aggregated_df prs) (repo_filtered_df repos)) as [|j js IH];
    [done|].
  cbn [mapM fmap list_fmap]. rewrite IH.
  by destruct (final_cells_columns j) as [-> _].
Qed.

Lemma partition_of_columns row :
  partition_of partition_value "repository_name" (columns row)
  = Some (partition_dir partition_value "repository_name"
            (cell_string (repository_name row)),
          stored_columns row).
Proof. destruct row. vm_compute. reflexivity. Qed.

Lemma write_columns (rows : list ComplianceRecord) :
  write_partitionBy partition_value "repository_name" (columns <$> rows)
  = Some (foldr store ∅
            ((fun row => (partition_dir partition_value "repository_name"
                            (cell_string (repository_name row)),
                          stored_columns row)) <$> rows)).
Proof.
  unfold write_partitionBy.
  assert (mapM (partition_of partition_value "repository_name") (columns <$> rows)
          = Some ((fun row => (partition_dir partition_value "repository_name"
                                 (cell_string (repository_name row)),
                               stored_columns row)) <$> rows)) as ->; [|done].
  induction rows as [|row rows IH]; [done|].
  cbn [mapM fmap list_fmap]. cbn [fmap list_fmap] in IH.
  by rewrite partition_of_columns, IH.
Qed.

(** What a directory of the data set holds are the records stored for it,
    and every record stored is held. *)
Lemma store_sound parts : ∀ d recs rec,
  foldr store ∅ parts !! d = Some recs → rec ∈ recs → (d, rec) ∈ parts.
Proof.
  induction parts as [|[d' rec'] parts IH]; intros d recs rec Hd Hrec.
  - cbn [foldr] in Hd. by rewrite lookup_empty in Hd.
  - cbn [foldr] in Hd. unfold store at 1 in Hd. cbn [fst snd] in Hd.
    destruct (decide (d' = d)) as [->|Hne].
    + rewrite lookup_insert_eq in Hd. simplify_eq.
      apply elem_of_cons in Hrec as [->|Hrec]; [by left|]. right.
      destruct (foldr store ∅ parts !! d) as [recs|] eqn:Hold.
      * by apply (IH d recs).
      * by apply elem_of_nil in Hrec.
    + rewrite lookup_insert_ne in Hd by done. right. by apply (IH d recs).
Qed.

Lemma store_complete parts : ∀ d rec,
  (d, rec) ∈ parts → ∃ recs, foldr store ∅ parts !! d = Some recs ∧ rec ∈ recs.
Proof.
  induction parts as [|[d' rec'] parts IH]; intros d rec Hin.
  - by apply elem_of_nil in Hin.
  - cbn [foldr]. unfold store at 1. cbn [fst snd].
    apply elem_of_cons in Hin as [Heq|Hin].
    + simplify_eq. rewrite lookup_insert_eq. eexists. split; [done|]. by left.
    + destruct (IH d rec Hin) as (recs & Hrecs & Hrec).
      destruct (decide (d' = d)) as [->|Hne].
      * rewrite lookup_insert_eq, Hrecs. eexists. split; [done|]. by right.
      * rewrite lookup_insert_ne by done. by exists recs.
Qed.

(** C7.  The job writes its data set, and every record stored in it has
    exactly seven fields, in one fixed order: [organization_name],
    [repository_id], [repository_owner], [num_prs], [num_prs_merged],
    [merged_at] and [is_compliant], with the values of a row of the final
    data frame.  The eighth column of the final [select],
    [repository_name], is the partition column: its value is in the name of
    the directory that holds the record, not in the record.  Every row of
    the final data frame is stored so. *)
Theorem stored_records_have_the_seven_fields repos prs :
  ∃ out,
    final_frame repos prs ≫= write_partitionBy partition_value "repository_name"
      = Some out ∧
    (∀ d recs rec, out !! d = Some recs → rec ∈ recs →
       rec.*1 = [ "organization_name"; "repository_id"; "repository_owner";
                  "num_prs"; "num_prs_merged"; "merged_at"; "is_compliant" ] ∧
       ∃ row, row ∈ final_df repos prs ∧
              d = partition_dir partition_value "repository_name"
                    (cell_string (repository_name row)) ∧
              rec = stored_columns row) ∧
    (∀ row, row ∈ final_df repos prs →
       ∃ recs,
         out !! partition_dir partition_value "repository_name"
                  (cell_string (repository_name row)) = Some recs ∧
         stored_columns row ∈ recs).
Proof.
  eexists. rewrite final_frame_columns. cbn [mbind option_bind].
  split; [apply write_columns|]. split.
  - intros d recs rec Hd Hrec.
    apply (store_sound _ _ _ _ Hd) in Hrec.
    apply list_elem_of_fmap in Hrec as (row & Heq & Hrow). simplify_eq.
    split; [reflexivity|]. by exists row.
  - intros row Hrow. apply store_complete.
    apply list_elem_of_fmap. by exists row.
Qed.

Lemma pr_raw_df_with_id (records : list RawPullRequest) :
  pr_raw_df (filter (fun r => is_Some (cell (raw_head_repo_id r))) records)
  = filter (fun pr => is_Some (head_repo_id pr)) (pr_raw_df records).
Proof.
  unfold pr_raw_df. induction records as [|r records IH]; [done|].
  cbn [fmap list_fmap]. rewrite !filter_cons. cbn [head_repo_id].
  destruct (decide (is_Some (cell (raw_head_repo_id r)))); cbn [fmap list_fmap];
    by rewrite IH.
Qed.

Lemma pr_raw_df_without_id (records : list RawPullRequest) :
  length (filter (fun r => cell (raw_head_repo_id r) = None) records)
  = length (filter (fun pr => head_repo_id pr = None) (pr_raw_df records)).
Proof.
  unfold pr_raw_df. induction records as [|r records IH]; [done|].
  cbn [fmap list_fmap]. rewrite !filter_cons. cbn [head_repo_id].
  destruct (decide (cell (raw_head_repo_id r) = None)); cbn [length]; by rewrite IH.
Qed.

(** C10, as the code has it.  When every column that the job names is
    carried by some record of its input file, a pull-request record that
    lacks [head.repo.id] raises no fault: the job writes its data set; the
    record is grouped with the others of its kind into the one row of the
    NULL key, which counts them; that row joins with nothing; and the data
    set written is the one of the final data frame computed with the records
    that lack the identifier left out. *)
Theorem records_without_id_are_dropped (raw_repos : list RawRepository)
    (raw_prs : list RawPullRequest) (raw : RawPullRequest) :
  repo_columns_resolve raw_repos = true →
  pr_columns_resolve raw_prs = true →
  raw ∈ raw_prs →
  cell (raw_head_repo_id raw) = None →
  (∃ a, a ∈ pr_aggregated_df (pr_raw_df raw_prs) ∧
        agg_repository_id a = None ∧
        agg_num_prs a
          = Z.of_nat (length (filter (fun r => cell (raw_head_repo_id r) = None) raw_prs)) ∧
        ∀ a', a' ∈ pr_aggregated_df (pr_raw_df raw_prs) →
              agg_repository_id a' = None → a' = a) ∧
  (∀ a r, agg_repository_id a = None → join_row a r = []) ∧
  ∃ out,
    job partition_value raw_repos raw_prs = inr out ∧
    write_partitionBy partition_value "repository_name"
      (columns <$> final_df (repo_raw_df raw_repos)
                     (pr_raw_df (filter (fun r => is_Some (cell (raw_head_repo_id r)))
                                   raw_prs)))
    = Some out.
Proof.
  intros Hrepos Hprs Hin Hnull.
  destruct (null_key_group_joins_nothing (repo_raw_df raw_repos) (pr_raw_df raw_prs)
              {| head_repo_id := cell (raw_head_repo_id raw);
                 pr_merged_at := cell (raw_merged_at raw);
                 repository := cell (raw_repository raw) |})
    as ((a & Ha & Hkey & Hcount & Huniq) & Hjoin & Hfinal).
  { unfold pr_raw_df. apply list_elem_of_fmap. by exists raw. }
  { done. }
  split_and!.
  - exists a. split_and!; [done | done | | done].
    by rewrite Hcount, pr_raw_df_without_id.
  - done.
  - unfold job. rewrite Hrepos, Hprs, final_frame_columns. cbn [mbind option_bind].
    rewrite pr_raw_df_with_id, <- Hfinal, write_columns. eexists. by split.
Qed.

End Output.

(** ** The aggregator on the scenarios *)
Section ScenarioChecks.
Import DataTransformation Scenarios SparkRead RawScenarios Expected.

Example aggregation_of_scenario :
  pr_aggregated_df pull_requests
  = [ mkPullRequestAggregate (Some 1) 2 (Some 2) (Some "2024-03-05T08:30:00Z");
      mkPullRequestAggregate None 1 (Some 1) (Some "2024-03-06T00:00:00Z");
      mkPullRequestAggregate (Some 2) 2 (Some 2) (Some "2024-02-01T00:00:00Z");
      aggregate4;
      mkPullRequestAggregate (Some 9) 1 (Some 0) None ].
Proof. vm_compute. reflexivity. Qed.

(** Repository 1 is compliant; repository 2 has every pull request merged
    but another owner; repository 4 has an unmerged pull request and no
    owner; repository 3 has no pull request and identifier 9 no repository,
    so neither has a row; nor has the pull request without identifier. *)
Example final_df_of_scenario :
  final_df repositories pull_requests
  = [ recordA;
      mkComplianceRecord (Some "other-org") 2 (Some "repoB") (Some "other-org")
        2 (Some 2) (Some "2024-02-01T00:00:00Z") false;
      mkComplianceRecord (Some "scytale") 4 (Some "repoD") None
        2 (Some 1) (Some "2024-01-15T00:00:00Z") false ].
Proof. vm_compute. reflexivity. Qed.

(** The scenarios of the specification: one repository owned by
    [scytale] with one of two pull requests merged, with both merged, and
    with both merged under another owner. *)
Example one_of_two_merged :
  final_df [mkRepository (Some "scytale/repoA") (Some 1) (Some "repoA") (Some "scytale")]
           [pr (Some 1) (Some "2024-01-01") "repoA"; pr (Some 1) None "repoA"]
  = [ mkComplianceRecord (Some "scytale") 1 (Some "repoA") (Some "scytale")
        2 (Some 1) (Some "2024-01-01") false ].
Proof. vm_compute. reflexivity. Qed.

Example both_merged :
  final_df [mkRepository (Some "scytale/repoA") (Some 1) (Some "repoA") (Some "scytale")]
           [pr (Some 1) (Some "2024-01-01") "repoA"; pr (Some 1) (Some "2024-01-02") "repoA"]
  = [ mkComplianceRecord (Some "scytale") 1 (Some "repoA") (Some "scytale")
        2 (Some 2) (Some "2024-01-02") true ].
Proof. vm_compute. reflexivity. Qed.

Example both_merged_other_owner :
  final_df [mkRepository (Some "scytale/repoA") (Some 1) (Some "repoA") (Some "other-org")]
           [pr (Some 1) (Some "2024-01-01") "repoA"; pr (Some 1) (Some "2024-01-02") "repoA"]
  = [ mkComplianceRecord (Some "scytale") 1 (Some "repoA") (Some "other-org")
        2 (Some 2) (Some "2024-01-02") false ].
Proof. vm_compute. reflexivity. Qed.

Lemma aggregate4_in_scenario : aggregate4 ∈ pr_aggregated_df pull_requests.
Proof. apply (list_elem_of_lookup_2 _ 3%nat). vm_compute. reflexivity. Defined.

Lemma recordA_in_scenario : recordA ∈ final_df repositories pull_requests.
Proof. apply (list_elem_of_lookup_2 _ 0%nat). vm_compute. reflexivity. Defined.

Lemma num_prs_merged_le_num_prs_scenario :
  ∃ merged, agg_num_prs_merged aggregate4 = Some merged ∧
            0 ≤ merged ≤ agg_num_prs aggregate4.
Proof.
  apply (num_prs_merged_le_num_prs pull_requests aggregate4).
  exact aggregate4_in_scenario.
Defined.

Lemma is_compliant_iff_scenario :
  (is_compliant recordA = true ↔
     num_prs_merged recordA = Some (num_prs recordA) ∧
     ∃ owner, repository_owner recordA = Some owner ∧
              occurs_ignoring_case "scytale" owner) ∧
  (is_compliant recordA = false ↔
     ¬ (num_prs_merged recordA = Some (num_prs recordA) ∧
        ∃ owner, repository_owner recordA = Some owner ∧
                 occurs_ignoring_case "scytale" owner)) ∧
  (repository_owner recordA = None → is_compliant recordA = false).
Proof.
  apply (is_compliant_iff repositories pull_requests recordA).
  exact recordA_in_scenario.
Defined.

(** C10 as stated fails.  In a pull-request file in which no record has a
    head repository, every record lacks [head.repo.id]; the column of the
    query does not resolve, and the job ends with [AnalysisException]
    instead of grouping the records under a NULL key. *)
Lemma no_record_with_id_is_a_fault :
  (∀ raw, raw ∈ orphan_pull_requests → cell (raw_head_repo_id raw) = None) ∧
  repo_columns_resolve raw_repositories = true ∧
  job plain_value raw_repositories orphan_pull_requests = inl AnalysisException.
Proof.
  split_and!.
  - intros raw Hin.
    repeat (apply elem_of_cons in Hin as [->|Hin]; [reflexivity|]).
    by apply elem_of_nil in Hin.
  - reflexivity.
  - reflexivity.
Qed.

Lemma stored_records_have_the_seven_fields_scenario :
  ∃ out,
    final_frame repositories pull_requests
      ≫= write_partitionBy plain_value "repository_name" = Some out ∧
    (∀ d recs rec, out !! d = Some recs → rec ∈ recs →
       rec.*1 = [ "organization_name"; "repository_id"; "repository_owner";
                  "num_prs"; "num_prs_merged"; "merged_at"; "is_compliant" ] ∧
       ∃ row, row ∈ final_df repositories pull_requests ∧
              d = partition_dir plain_value "repository_name"
                    (cell_string (repository_name row)) ∧
              rec = stored_columns row) ∧
    (∀ row, row ∈ final_df repositories pull_requests →
       ∃ recs,
         out !! partition_dir plain_value "repository_name"
                  (cell_string (repository_name row)) = Some recs ∧
         stored_columns row ∈ recs).
Proof. apply (stored_records_have_the_seven_fields plain_value repositories pull_requests). Defined.

Lemma records_without_id_are_dropped_scenario :
  (∃ a, a ∈ pr_aggregated_df (pr_raw_df raw_pull_requests) ∧
        agg_repository_id a = None ∧
        agg_num_prs a
          = Z.of_nat (length (filter (fun r => cell (raw_head_repo_id r) = None)
                                raw_pull_requests)) ∧
        ∀ a', a' ∈ pr_aggregated_df (pr_raw_df raw_pull_requests) →
              agg_repository_id a' = None → a' = a) ∧
  (∀ a r, agg_repository_id a = None → join_row a r = []) ∧
  ∃ out,
    job plain_value raw_repositories raw_pull_requests = inr out ∧
    write_partitionBy plain_value "repository_name"
      (columns <$> final_df (repo_raw_df raw_repositories)
                     (pr_raw_df (filter (fun r => is_Some (cell (raw_head_repo_id r)))
                                   raw_pull_requests)))
    = Some out.
Proof.
  apply (records_without_id_are_dropped plain_value raw_repositories raw_pull_requests
           (raw_pr Missing (Value "2024-03-06T00:00:00Z") "repoA")).
  - reflexivity.
  - reflexivity.
  - apply (list_elem_of_lookup_2 _ 3%nat). reflexivity.
  - reflexivity.
Defined.

(** The records of the scenarios, read, are the rows of the scenarios. *)
Example raw_scenarios_read :
  repo_raw_df raw_repositories = repositories ∧
  pr_raw_df raw_pull_requests = pull_requests.
Proof. split; reflexivity. Qed.

End ScenarioChecks.

(** ** [fetch_data] against any server *)
Section FetchDataAnyServer.
Import DataExtraction Sessions Samples EdgeSamples.
Context (os_sleep : Z → option Py.exn).
Context {A : Type}.
Implicit Types (x : Exchange A) (w : World) (u : string) (acc : list A)
  (script rest : list (Exchange A)).

Lemma fetch_loop_returned script : ∀ w url acc data w' rest,
  fetch_loop os_sleep script w url acc = (Returned data, w', rest) →
  ∃ used,
    script = used ++ rest ∧
    data = acc ++ concat (successful_pages used) ∧
    length (requested (log w')) = (length (requested (log w)) + length used)%nat.
Proof.
  induction script as [|x script IH]; intros w url acc data w' rest Hrun.
  - exists []. destruct url as [u|]; simpl in Hrun; [destruct (Py.truthy u)|];
      simplify_eq; simpl; rewrite app_nil_r; split_and!; (done || lia).
  - destruct url as [u|]; cbn [fetch_loop] in Hrun;
      [destruct (Py.truthy u) eqn:Hu|]; simplify_eq;
      try (exists []; simpl; rewrite app_nil_r; split_and!; (done || lia)).
    destruct (Z.eqb_spec (status_code (response x)) 200) as [H200|H200].
    { apply IH in Hrun as (used & -> & -> & Hlen). exists (x :: used).
      rewrite successful_pages_cons_ok by done. simpl in *.
      rewrite requested_app, length_app in Hlen. simpl in Hlen.
      rewrite <- (assoc (++)). split_and!; [done | done | lia]. }
    destruct (rate_limited (response x)) as [?|[]]; simplify_eq.
    + destruct (sleep_time (response x) (do_request u x w)) as [?|secs]; simplify_eq.
      destruct (time_sleep os_sleep secs); simplify_eq.
      apply IH in Hrun as (used & -> & -> & Hlen). exists (x :: used).
      rewrite successful_pages_cons_other by done. simpl in *.
      rewrite !requested_app, !length_app in Hlen. simpl in Hlen.
      split_and!; [done | done | lia].
    + exists [x]. rewrite successful_pages_cons_other by done. simpl.
      rewrite !requested_app, !length_app, app_nil_r. simpl.
      split_and!; [done | done | lia].
Qed.

(** X1.  Whatever the server answers, a list that [fetch_data] returns is the
    concatenation, in order, of the bodies of the successful responses it
    consumed, one request was made per consumed response, and the responses
    after them were left alone. *)
Theorem fetch_data_returns_consumed_pages script (clock : Z) (url : string)
    (data : list A) w' rest :
  fetch_data os_sleep script clock url = (Returned data, w', rest) →
  ∃ used,
    script = used ++ rest ∧
    data = concat (successful_pages used) ∧
    length (requested (log w')) = length used.
Proof.
  intros Hrun. apply fetch_loop_returned in Hrun as (used & ? & ? & ?). by exists used.
Qed.

Lemma fetch_loop_requested script : ∀ w url acc out w' rest v,
  fetch_loop os_sleep script w url acc = (out, w', rest) →
  v ∈ requested (log w') →
  v ∈ requested (log w) ∨ url = Some v ∨ v ∈ next_links script.
Proof.
  induction script as [|x script IH]; intros w url acc out w' rest v Hrun Hv.
  - destruct url as [u|]; simpl in Hrun; [destruct (Py.truthy u)|]; simplify_eq;
      [|by left..].
    simpl in Hv. rewrite requested_app in Hv.
    apply elem_of_app in Hv as [Hv|Hv%list_elem_of_singleton]; [by left|].
    right; left. by rewrite Hv.
  - destruct url as [u|]; cbn [fetch_loop] in Hrun;
      [destruct (Py.truthy u) eqn:Hu|]; simplify_eq; [|by left..].
    assert (∀ l, v ∈ requested (log w ++ EvRequest u (clock_us w) :: l) →
                 (∀ e, e ∈ l → ∀ t, e ≠ EvRequest v t) →
                 v ∈ requested (log w) ∨ Some u = Some v) as Hstep.
    { intros l Hin Hl. rewrite requested_app in Hin.
      apply elem_of_app in Hin as [Hin|Hin]; [by left|].
      apply list_elem_of_omap in Hin as (e & [->|He]%elem_of_cons & Heq).
      - right. by simplify_eq.
      - destruct e; simplify_eq. by destruct (Hl _ He issued_at_us). }
    unfold next_links. cbn [omap list_omap].
    destruct (Z.eqb_spec (status_code (response x)) 200) as [H200|H200].
    { destruct (IH _ _ _ _ _ _ v Hrun Hv) as [Hin|[Hnext|Hin]].
      - destruct (Hstep [] Hin) as [?|?]; [by intros ? ?%elem_of_nil | by left | by right; left].
      - right; right. rewrite Hnext. left.
      - right; right. destruct (next_url (response x)); [by right | done]. }
    assert (v ∈ next_links script → v ∈ omap
              (fun x0 : Exchange A =>
                 if status_code (response x0) =? 200 then next_url (response x0) else None)
              script) as Hfold by done.
    destruct (rate_limited (response x)) as [?|[]]; simplify_eq.
    + destruct (Hstep [] Hv) as [?|?]; [by intros ? ?%elem_of_nil | by left | by right; left].
    + destruct (sleep_time (response x) (do_request u x w)) as [?|secs]; simplify_eq.
      { destruct (Hstep [] Hv) as [?|?];
          [by intros ? ?%elem_of_nil | by left | by right; left]. }
      destruct (time_sleep os_sleep secs) as [exn|]; simplify_eq.
      { simpl in Hv. rewrite <- (assoc (++)) in Hv.
        destruct (Hstep [EvPrintRateLimit secs] Hv) as [?|?]; [|by left | by right; left].
        by intros e ->%list_elem_of_singleton. }
      destruct (IH _ _ _ _ _ _ v Hrun Hv) as [Hin|[Hsame|Hin]].
      * simpl in Hin. rewrite <- !(assoc (++)) in Hin.
        destruct (Hstep [EvPrintRateLimit secs; EvSleep secs] Hin) as [?|?];
          [|by left | by right; left].
        intros e [->|He]%elem_of_cons; [done|].
        by apply list_elem_of_singleton in He as ->.
      * by right; left.
      * right; right. by apply Hfold.
    + simpl in Hv. rewrite <- (assoc (++)) in Hv.
      destruct (Hstep [EvPrintFailed u (status_code (response x))] Hv) as [?|?];
        [|by left | by right; left].
      by intros e ->%list_elem_of_singleton.
Qed.

(** X2.  Every URL that [fetch_data] requests is the seed URL or the next link
    of a successful response of the server: no other URL is ever asked
    for. *)
Theorem fetch_data_requests_seed_or_next_link script (clock : Z) (url v : string)
    (out : Outcome A) w' rest :
  fetch_data os_sleep script clock url = (out, w', rest) →
  v ∈ requested (log w') →
  v = url ∨ v ∈ next_links script.
Proof.
  intros Hrun Hv.
  destruct (fetch_loop_requested _ _ _ _ _ _ _ _ Hrun Hv) as [Hin|[Heq|Hin]].
  - by apply elem_of_nil in Hin.
  - left. by simplify_eq.
  - by right.
Qed.

(** X5.  A zero-quota 403 without an [X-RateLimit-Reset] header: the lookup
    raises [KeyError] (its argument is the key in lower case, as the
    case-insensitive dictionary of the response stores it), which leaves
    [fetch_data] with the records gathered so far discarded; nothing is
    printed and nothing is slept. *)
Theorem missing_reset_header_raises x rest w u acc (v : string) :
  u ≠ EmptyString →
  status_code (response x) = 403 →
  headers (response x) !! "X-RateLimit-Remaining" = Some v →
  Py.int v = Some 0 →
  headers (response x) !! "X-RateLimit-Reset" = None →
  fetch_loop os_sleep (x :: rest) w (Some u) acc
  = (Raised (Py.KeyError "x-ratelimit-reset"), do_request u x w, rest).
Proof.
  intros Hu Hs Hv Hi Hreset. cbn [fetch_loop].
  assert (Py.truthy u = true) as -> by (by destruct u).
  unfold rate_limited, sleep_time. by rewrite Hs, Hv, Hi, Hreset.
Qed.

(** X6.  A 403 whose [X-RateLimit-Remaining] header is not an integer literal:
    [int] raises [ValueError], which leaves [fetch_data]; the response is
    not treated as a terminal failure and no partial result is returned. *)
Theorem garbled_remaining_header_raises x rest w u acc (v : string) :
  u ≠ EmptyString →
  status_code (response x) = 403 →
  headers (response x) !! "X-RateLimit-Remaining" = Some v →
  Py.int v = None →
  fetch_loop os_sleep (x :: rest) w (Some u) acc = (Raised Py.ValueError, do_request u x w, rest).
Proof.
  intros Hu Hs Hv Hi. cbn [fetch_loop].
  assert (Py.truthy u = true) as -> by (by destruct u).
  unfold rate_limited. by rewrite Hs, Hv, Hi.
Qed.

End FetchDataAnyServer.

(** ** The parse of the [Link] header *)
Section LinkHeader.
Import DataExtraction.
Implicit Types (s t sep cur piece : string).

Lemma app_empty_r s : s +:+ EmptyString = s.
Proof. induction s as [|c s IH]; [done|]. by rewrite app_cons, IH. Qed.

Lemma app_assoc_string s t v : (s +:+ t) +:+ v = s +:+ t +:+ v.
Proof. induction s as [|c s IH]; [done|]. by rewrite !app_cons, IH. Qed.

(** Every piece of a split is a substring of what was split. *)
Lemma split_go_pieces sep s : ∀ skip cur piece,
  skip = 0%nat ∨ cur = EmptyString →
  piece ∈ Text.split_go sep skip cur s →
  ∃ pre post, cur +:+ s = pre +:+ piece +:+ post.
Proof.
  induction s as [|c s IH]; intros skip cur piece Hinv Hin.
  - apply list_elem_of_singleton in Hin as ->.
    exists EmptyString, EmptyString. by rewrite app_empty_r.
  - cbn [Text.split_go] in Hin. destruct skip as [|k].
    + destruct (Text.startswith (String c s) sep).
      * apply elem_of_cons in Hin as [->|Hin].
        -- by exists EmptyString, (String c s).
        -- apply IH in Hin as (pre & post & Heq); [|by right].
           rewrite app_empty_l in Heq.
           exists (cur +:+ String c pre), post.
           by rewrite app_assoc_string, app_cons, <- Heq.
      * apply IH in Hin as (pre & post & Heq); [|by left].
        exists pre, post. by rewrite <- Heq, app_assoc_string.
    + destruct Hinv as [?| ->]; [done|].
      apply IH in Hin as (pre & post & Heq); [|by right].
      rewrite app_empty_l in Heq. exists (String c pre), post.
      by rewrite app_empty_l, app_cons, <- Heq.
Qed.

Lemma contains_in_substring s t pre piece post :
  s = pre +:+ piece +:+ post →
  Text.contains piece t = true →
  Text.contains s t = true.
Proof.
  intros -> (pre' & post' & ->)%contains_spec. apply contains_spec.
  exists (pre +:+ pre'), (post' +:+ post). by rewrite !app_assoc_string.
Qed.

(** X7.  Pagination goes on only on the server's word: when a page yields a
    next URL, its [Link] header is there, is not empty and contains the
    relation [rel=] followed by the quoted word [next]. *)
Theorem next_url_needs_rel_next {A} (r : Response A) (u : string) :
  next_url r = Some u →
  ∃ link_header,
    headers r !! "Link" = Some link_header ∧
    link_header ≠ EmptyString ∧
    Text.contains link_header rel_next = true.
Proof.
  unfold next_url. intros Hnext.
  destruct (headers r !! "Link") as [h|]; [|done]. exists h. split; [done|].
  destruct (Py.truthy h) eqn:Hh; [|done]. split; [by destruct h|].
  destruct (List.filter _ _) as [|link links] eqn:Hf; [done|].
  assert (In link (List.filter (fun link => Text.contains link rel_next)
                               (Text.split h ", "))) as Hin
    by (rewrite Hf; by left).
  apply filter_In in Hin as [Hin Hc].
  apply list_elem_of_In, split_go_pieces in Hin as (pre & post & Heq); [|by left].
  by apply (contains_in_substring h rel_next pre link post).
Qed.

End LinkHeader.

(** ** The general fetcher properties on the sample servers *)
Section FetchDataAnyServerSamples.
Import DataExtraction Sessions Samples EdgeSamples.

Lemma fetch_data_returns_consumed_pages_sample :
  ∃ used,
    [page1; server_error; page2] = used ++ [page2] ∧
    [11; 12] = concat (successful_pages used) ∧
    length (requested (log (fetch_data sample_sleep [page1; server_error; page2] clock0 seed).1.2))
      = length used.
Proof.
  apply (fetch_data_returns_consumed_pages sample_sleep [page1; server_error; page2] clock0 seed
           [11; 12] _ [page2]).
  vm_compute. reflexivity.
Defined.

Lemma fetch_data_requests_seed_or_next_link_sample :
  page2_url = seed ∨ page2_url ∈ next_links [page1; quota "1002"; page2].
Proof.
  apply (fetch_data_requests_seed_or_next_link sample_sleep [page1; quota "1002"; page2] clock0 seed
           page2_url (Returned [11; 12; 21])
           (fetch_data sample_sleep [page1; quota "1002"; page2] clock0 seed).1.2 []).
  - vm_compute. reflexivity.
  - apply (list_elem_of_lookup_2 _ 1%nat). vm_compute. reflexivity.
Defined.

Lemma retry_same_url_after_reset_sample :
  (1002 + 1) * us_per_second ≤ resume_clock 1000650000 (quota "1002") 1002 ∧
  ∀ out w3 rest',
    fetch_loop sample_sleep [quota "1002"; page2] (mkWorld 1000650000 []) (Some page2_url) [11; 12]
      = (out, w3, rest') →
    ([] ++ [ EvRequest page2_url 1000650000;
             EvPrintRateLimit (wait_seconds 1000650000 (quota "1002") 1002);
             EvSleep (wait_seconds 1000650000 (quota "1002") 1002);
             EvRequest page2_url (resume_clock 1000650000 (quota "1002") 1002) ])
    `prefix_of` log w3.
Proof.
  apply (retry_same_url_after_reset sample_sleep (quota "1002") page2 []
           (mkWorld 1000650000 []) page2_url [11; 12] 1002).
  - discriminate.
  - by vm_compute.
  - by apply quota_sample.
  - by vm_compute.
Defined.

Lemma missing_reset_header_raises_sample :
  fetch_loop sample_sleep [quota_without_reset; page2] (start clock0) (Some seed) [11; 12]
  = (Raised (Py.KeyError "x-ratelimit-reset"),
     do_request seed quota_without_reset (start clock0), [page2]).
Proof.
  apply (missing_reset_header_raises sample_sleep quota_without_reset [page2] (start clock0) seed
           [11; 12] "0"); [discriminate | reflexivity | by vm_compute..].
Defined.

Lemma garbled_remaining_header_raises_sample :
  fetch_loop sample_sleep [forbidden_garbled; page2] (start clock0) (Some seed) [11; 12]
  = (Raised Py.ValueError, do_request seed forbidden_garbled (start clock0), [page2]).
Proof.
  apply (garbled_remaining_header_raises sample_sleep forbidden_garbled [page2] (start clock0) seed
           [11; 12] "none"); [discriminate | reflexivity | by vm_compute..].
Defined.

Lemma next_url_needs_rel_next_sample :
  ∃ link_header,
    headers (response page1) !! "Link" = Some link_header ∧
    link_header ≠ EmptyString ∧
    Text.contains link_header rel_next = true.
Proof.
  apply (next_url_needs_rel_next (response page1) page2_url).
  vm_compute. reflexivity.
Defined.

End FetchDataAnyServerSamples.

(** ** More on the aggregator *)
Section AggregatorFacts.
Import DataTransformation Scenarios Expected.
Implicit Types (prs : list PullRequest) (repos : list Repository)
  (a : PullRequestAggregate) (r : RepositorySummary) (j : Joined) (key : option Z).

Lemma split_slash_head s : ∀ cur,
  ∃ first tail,
    Text.split_go "/" 0 cur s = (cur +:+ first) :: tail ∧
    Text.contains first "/" = false ∧
    (s = first ∨ ∃ rest, s = first +:+ "/" +:+ rest).
Proof.
  induction s as [|c s IH]; intros cur.
  - exists EmptyString, []. rewrite app_empty_r. split_and!; [done | done | by left].
  - cbn [Text.split_go Text.startswith].
    destruct (decide ("/"%char = c)) as [<-|Hc].
    + assert (Text.startswith s EmptyString = true) as -> by (by destruct s).
      exists EmptyString, (Text.split_go "/" 0 "" s). rewrite app_empty_r.
      split_and!; [done | done |]. right. by exists s.
    + destruct (IH (cur +:+ String c "")) as (first & tail & -> & Hno & Hs).
      exists (String c first), tail. split_and!.
      * by rewrite app_assoc_string.
      * cbn [Text.contains Text.startswith]. by rewrite decide_False.
      * destruct Hs as [->|(rest & ->)]; [by left|]. right. by exists rest.
Qed.

(** X16.  The organization name of a repository is the text of its
    [full_name] before the first slash, and the whole [full_name] when it
    has no slash; a missing [full_name] gives NULL.  The other three columns
    are copied. *)
Theorem repo_filtered_df_summarises repos :
  Forall2 summarises repos (repo_filtered_df repos).
Proof.
  unfold repo_filtered_df. apply Forall2_fmap_r, Forall_Forall2_diag, Forall_forall.
  intros repo _. unfold summarises. cbn. split_and!; [done..|].
  destruct (full_name repo) as [s|]; [|done]. cbn.
  destruct (split_slash_head s EmptyString) as (first & tail & Hsplit & Hno & Hs).
  exists first. unfold Text.split. rewrite Hsplit. done.
Qed.

Lemma present_merged_at_length (group : list PullRequest) :
  length (Sql.present (pr_merged_at <$> group)) = length (merged_prs group).
Proof.
  unfold Sql.present, merged_prs. induction group as [|pr group IH]; [done|].
  cbn [fmap list_fmap omap list_omap]. rewrite filter_cons.
  destruct (pr_merged_at pr) as [t|] eqn:Ht.
  - rewrite decide_True by (by eexists). simpl. by rewrite <- IH.
  - rewrite decide_False by (by intros [? ?]). by rewrite <- IH.
Qed.

Lemma max_none_iff (group : list PullRequest) :
  Sql.max (pr_merged_at <$> group) = None ↔ length (merged_prs group) = 0%nat.
Proof.
  rewrite <- present_merged_at_length. unfold Sql.max.
  destruct (Sql.present (pr_merged_at <$> group)); simpl; split; done.
Qed.

Lemma aggregate_group_facts prs key :
  key ∈ group_keys prs →
  1 ≤ agg_num_prs (aggregate_group prs key) ∧
  agg_num_prs_merged (aggregate_group prs key)
    = Some (Z.of_nat (length (merged_prs (group_rows key prs)))) ∧
  (agg_merged_at (aggregate_group prs key) = None ↔
   length (merged_prs (group_rows key prs)) = 0%nat).
Proof.
  intros Hkey. pose proof (group_rows_nonempty _ _ Hkey) as Hne. cbn. split_and!.
  - unfold Sql.count_star. destruct (group_rows key prs); [done | simpl; lia].
  - by apply sum_merged_case.
  - apply max_none_iff.
Qed.

(** X17.  Every row of the aggregation stands for at least one pull request,
    and its [merged_at] is NULL exactly when its [num_prs_merged] is 0. *)
Theorem aggregate_rows_are_consistent prs a :
  a ∈ pr_aggregated_df prs →
  1 ≤ agg_num_prs a ∧
  (agg_merged_at a = None ↔ agg_num_prs_merged a = Some 0).
Proof.
  intros [Hkey Ha]%elem_of_pr_aggregated_df. rewrite Ha.
  destruct (aggregate_group_facts _ _ Hkey) as (Hn & -> & Hnone).
  split; [done|]. rewrite Hnone. split; [by intros -> | intros [= ?]; lia].
Qed.

Lemma compliant_counts_equal j :
  compliant j = true → j_num_prs_merged j = Some (j_num_prs j).
Proof.
  unfold compliant, Sql.eq.
  destruct (j_num_prs_merged j) as [m|]; simpl.
  - destruct (Z.eqb_spec (j_num_prs j) m) as [->|]; [done|].
    by destruct (Sql.contains (Sql.lower (j_repository_owner j)) "scytale") as [[]|].
  - by destruct (Sql.contains (Sql.lower (j_repository_owner j)) "scytale") as [[]|].
Qed.

(** X18.  No row of the final data frame stands for zero pull requests, and a
    compliant row always carries a merge timestamp. *)
Theorem final_rows_have_pull_requests repos prs (row : ComplianceRecord) :
  row ∈ final_df repos prs →
  1 ≤ num_prs row ∧
  (is_compliant row = true → is_Some (merged_at row)).
Proof.
  intros (a & r & j & [Hkey Ha]%elem_of_pr_aggregated_df & _ &
          (_ & _ & Hj)%elem_of_join_row & ->)%elem_of_final_df.
  destruct (aggregate_group_facts _ _ Hkey) as (Hn & Hm & Hnone).
  rewrite <- Ha in Hn, Hm, Hnone.
  cbn [num_prs is_compliant merged_at select_final].
  rewrite Hj. cbn [j_num_prs j_merged_at]. split; [done|].
  intros Hc%compliant_counts_equal. rewrite Hj in Hc. cbn in Hc.
  destruct (agg_merged_at a) as [t|]; [by eexists|].
  destruct Hnone as [Hzero _]. rewrite Hzero in Hm by done.
  rewrite Hm in Hc. simplify_eq. lia.
Qed.

End AggregatorFacts.

(** ** The final data frame, row by row *)
Section FinalRows.
Import DataTransformation Scenarios Expected.
Implicit Types (prs : list PullRequest) (repos : list Repository)
  (a : PullRequestAggregate) (r : RepositorySummary) (j : Joined).





End FinalRows.

(** ** Row order and duplicates *)
Section RowOrder.
Import DataTransformation Scenarios Expected.
Implicit Types (prs : list PullRequest) (repos : list Repository)
  (a : PullRequestAggregate) (r : RepositorySummary) (j : Joined) (key : option Z).

Lemma sum_total vs :
  Sql.sum vs =
  match Sql.present vs with
  | [] => None
  | _ :: _ => Some (foldr Z.add 0 (Sql.present vs))
  end.
Proof.
  unfold Sql.sum. destruct (Sql.present vs) as [|x xs]; [done|].
  by rewrite foldl_add.
Qed.

Lemma foldr_add_perm (l l' : list Z) : l ≡ₚ l' → foldr Z.add 0 l = foldr Z.add 0 l'.
Proof. induction 1; simpl; lia. Qed.

Lemma sum_perm vs vs' : vs ≡ₚ vs' → Sql.sum vs = Sql.sum vs'.
Proof.
  intros Hperm. rewrite !sum_total.
  assert (Sql.present vs ≡ₚ Sql.present vs') as Hp by (unfold Sql.present; by rewrite Hperm).
  destruct (Sql.present vs) as [|x xs], (Sql.present vs') as [|y ys]; [done| | |].
  - by apply Permutation_nil_cons in Hp.
  - symmetry in Hp. by apply Permutation_nil_cons in Hp.
  - f_equal. by apply foldr_add_perm.
Qed.

Lemma max_perm vs vs' : vs ≡ₚ vs' → Sql.max vs = Sql.max vs'.
Proof.
  intros Hperm.
  assert (Sql.present vs ≡ₚ Sql.present vs') as Hp by (unfold Sql.present; by rewrite Hperm).
  pose proof (max_spec vs) as H1. pose proof (max_spec vs') as H2.
  destruct (Sql.max vs) as [m|], (Sql.max vs') as [m'|]; [| | |done].
  - destruct H1 as [Hin Hle], H2 as [Hin' Hle']. f_equal.
    apply (anti_symm String.le).
    + apply Hle'. by rewrite <- Hp.
    + apply Hle. by rewrite Hp.
  - destruct H1 as [Hin _]. rewrite Hp, H2 in Hin. by apply elem_of_nil in Hin.
  - destruct H2 as [Hin _]. rewrite <- Hp, H1 in Hin. by apply elem_of_nil in Hin.
Qed.

Lemma aggregate_group_perm prs prs' key :
  prs ≡ₚ prs' → aggregate_group prs key = aggregate_group prs' key.
Proof.
  intros Hperm. unfold aggregate_group.
  assert (group_rows key prs ≡ₚ group_rows key prs') as Hg
    by (unfold group_rows; by rewrite Hperm).
  f_equal.
  - unfold Sql.count_star. by rewrite Hg.
  - apply sum_perm. by rewrite Hg.
  - apply max_perm. by rewrite Hg.
Qed.

Lemma group_keys_perm prs prs' : prs ≡ₚ prs' → group_keys prs ≡ₚ group_keys prs'.
Proof.
  intros Hperm. unfold group_keys.
  apply NoDup_Permutation; [apply NoDup_remove_dups..|].
  intros key. rewrite !elem_of_remove_dups. by rewrite Hperm.
Qed.

Lemma bind_perm_pointwise {X Y} (f g : X → list Y) (l l' : list X) :
  l ≡ₚ l' → (∀ x, f x ≡ₚ g x) → l ≫= f ≡ₚ l' ≫= g.
Proof.
  intros Hperm Hfg. rewrite <- Hperm. clear l' Hperm.
  induction l as [|x l IH]; [done|]. rewrite !bind_cons. by rewrite Hfg, IH.
Qed.

(** X20.  The order of the input rows plays no part.  Permuting the pull
    requests and the repositories permutes the rows of the aggregation and
    of the final data frame, and changes none of them. *)
Theorem final_df_ignores_input_order repos repos' prs prs' :
  repos ≡ₚ repos' →
  prs ≡ₚ prs' →
  pr_aggregated_df prs ≡ₚ pr_aggregated_df prs' ∧
  final_df repos prs ≡ₚ final_df repos' prs'.
Proof.
  intros Hrepos Hprs.
  assert (pr_aggregated_df prs ≡ₚ pr_aggregated_df prs') as Haggs.
  { unfold pr_aggregated_df. rewrite (group_keys_perm _ _ Hprs).
    assert (aggregate_group prs <$> group_keys prs'
            = aggregate_group prs' <$> group_keys prs') as ->; [|done].
    apply list_fmap_ext. intros _ key _. by apply aggregate_group_perm. }
  split; [done|]. unfold final_df, joined_df. apply fmap_Permutation.
  apply bind_perm_pointwise; [done|]. intros a.
  unfold repo_filtered_df. by rewrite Hrepos.
Qed.

Lemma joined_ids (summaries : list RepositorySummary) a (v : Z) :
  v ∈ j_repository_id <$> (summaries ≫= join_row a) →
  agg_repository_id a = Some v ∧ v ∈ omap rs_repository_id summaries.
Proof.
  intros (j & -> & (r & (Ha & Hr & _)%elem_of_join_row & Hin)%list_elem_of_bind)%list_elem_of_fmap.
  split; [done|]. apply list_elem_of_omap. by exists r.
Qed.

Lemma joined_ids_NoDup (summaries : list RepositorySummary) a :
  NoDup (omap rs_repository_id summaries) →
  NoDup (j_repository_id <$> (summaries ≫= join_row a)).
Proof.
  induction summaries as [|r summaries IH]; intros Hnd; [constructor|].
  rewrite bind_cons, fmap_app. cbn [omap list_omap] in Hnd.
  destruct (rs_repository_id r) as [y|] eqn:Hy.
  - apply NoDup_cons in Hnd as [Hnotin Hnd].
    apply NoDup_app. split_and!; [|  |by apply IH].
    + unfold join_row. rewrite Hy. destruct (agg_repository_id a) as [x|]; [|constructor].
      destruct (decide (x = y)); [|constructor]. apply NoDup_singleton.
    + intros v (j & -> & (_ & Hr & _)%elem_of_join_row)%list_elem_of_fmap
             [_ Hin]%joined_ids.
      rewrite Hy in Hr. by simplify_eq.
  - assert (join_row a r = []) as ->; [|by apply IH].
    unfold join_row. rewrite Hy. by destruct (agg_repository_id a).
Qed.

(** X21.  When no two repository records share an identifier, no two rows of
    the final data frame do: a repository has at most one row. *)
Theorem distinct_repositories_distinct_rows repos prs :
  NoDup (omap repo_id repos) →
  NoDup (repository_id <$> final_df repos prs).
Proof.
  intros Hnd. unfold final_df. rewrite <- list_fmap_compose.
  change (repository_id ∘ select_final) with j_repository_id.
  assert (NoDup (omap rs_repository_id (repo_filtered_df repos))) as Hnd'.
  { assert (omap rs_repository_id (repo_filtered_df repos) = omap repo_id repos) as ->;
      [|done].
    clear. induction repos as [|repo repos IH]; [done|].
    cbn. unfold repo_filtered_df in IH. by rewrite IH. }
  unfold joined_df.
  pose proof (NoDup_remove_dups (head_repo_id <$> prs)) as Hkeys.
  fold (group_keys prs) in Hkeys. rewrite <- pr_aggregated_df_keys in Hkeys.
  induction (pr_aggregated_df prs) as [|a aggs IH]; [constructor|].
  cbn [fmap list_fmap] in Hkeys. apply NoDup_cons in Hkeys as [Hnotin Hkeys].
  rewrite bind_cons, fmap_app. apply NoDup_app. split_and!.
  - by apply joined_ids_NoDup.
  - intros v [Ha _]%joined_ids (j & -> & (a' & Hj & Hin)%list_elem_of_bind)%list_elem_of_fmap.
    apply (list_elem_of_fmap_2 j_repository_id), joined_ids in Hj as [Ha' _].
    apply Hnotin. rewrite Ha, <- Ha'. by apply list_elem_of_fmap_2.
  - by apply IH.
Qed.

End RowOrder.

(** ** The pull-request harvest *)
Section HarvestFacts.
Import DataExtraction Sessions Harvest.
Context (os_sleep : Z → option Py.exn).
Context {V : Type} (format : V → string).
Implicit Types (repo : V) (repositories : list V) (w : World)
  (script rest : list (Exchange (gmap string V))) (pr_data : list (gmap string V)).

Lemma prs_url_truthy organization repo :
  Py.truthy (prs_url format organization repo) = true.
Proof. reflexivity. Qed.

Lemma repos_url_truthy organization :
  Py.truthy (repos_url organization) = true.
Proof. reflexivity. Qed.

Lemma successful_pages_app {A} (l1 l2 : list (Exchange A)) :
  successful_pages (l1 ++ l2) = successful_pages l1 ++ successful_pages l2.
Proof. unfold successful_pages. by rewrite filter_app, fmap_app. Qed.

Lemma untag repo (prs : list (gmap string V)) :
  delete "repository" <$> tag repo prs = delete "repository" <$> prs.
Proof.
  unfold tag. rewrite <- list_fmap_compose. apply list_fmap_ext.
  intros _ pr _. simpl. apply delete_insert_eq.
Qed.

Lemma fetch_pull_requests_from_returned organization repositories :
  ∀ script w pr_data out w' rest,
    fetch_pull_requests_from format os_sleep organization repositories script w pr_data
      = (Returned out, w', rest) →
    ∃ used new,
      script = used ++ rest ∧
      out = pr_data ++ new ∧
      (∀ pr, pr ∈ new → ∃ repo, repo ∈ repositories ∧ pr !! "repository" = Some repo) ∧
      delete "repository" <$> new
        = delete "repository" <$> concat (successful_pages used).
Proof.
  induction repositories as [|repo more IH]; intros script w pr_data out w' rest Hrun.
  - simpl in Hrun. simplify_eq. exists [], []. rewrite app_nil_r.
    split_and!; [done | done | by intros ? ?%elem_of_nil | done].
  - cbn [fetch_pull_requests_from] in Hrun.
    destruct (fetch_data_in os_sleep script w (prs_url format organization repo))
      as [[[prs|e|] w1] rest1] eqn:Hfetch; [|done..].
    apply fetch_loop_returned in Hfetch as (used1 & -> & Hprs & _).
    simpl in Hprs. subst prs.
    apply IH in Hrun as (used2 & new2 & -> & -> & Htags & Hsame).
    exists (used1 ++ used2), (tag repo (concat (successful_pages used1)) ++ new2).
    split_and!.
    + by rewrite <- (assoc (++)).
    + destruct (concat (successful_pages used1)); simpl.
      * done.
      * by rewrite <- (assoc (++)).
    + intros pr [Hpr|Hpr]%elem_of_app.
      * exists repo. split; [left|]. unfold tag in Hpr.
        apply list_elem_of_fmap in Hpr as (pr0 & -> & _). apply lookup_insert_eq.
      * destruct (Htags pr Hpr) as (repo' & ? & ?). exists repo'. split; [by right | done].
    + rewrite successful_pages_app, concat_app, !fmap_app, untag. by rewrite Hsame.
Qed.

Lemma harvest_tags (organization : string) repositories script w
    (out : list (gmap string V)) w' rest :
  fetch_pull_requests format os_sleep script w organization repositories = (Returned out, w', rest) →
  ∀ pr, pr ∈ out → ∃ repo, repo ∈ repositories ∧ pr !! "repository" = Some repo.
Proof. by intros (used & new & -> & -> & Htags & Hsame)%fetch_pull_requests_from_returned. Qed.

(** X8.  Whatever the servers answer, the records that
    [fetch_pull_requests] returns are the records of the successful
    responses it consumed, in order, none dropped, repeated or made up, each
    with nothing changed but its [repository] key, which holds one of the
    repository names asked for. *)
Theorem harvest_returns_the_tagged_pages (organization : string) repositories script w
    (out : list (gmap string V)) w' rest :
  fetch_pull_requests format os_sleep script w organization repositories = (Returned out, w', rest) →
  (∀ pr, pr ∈ out → ∃ repo, repo ∈ repositories ∧ pr !! "repository" = Some repo) ∧
  ∃ used,
    script = used ++ rest ∧
    delete "repository" <$> out = delete "repository" <$> concat (successful_pages used).
Proof.
  intros (used & new & -> & -> & Htags & Hsame)%fetch_pull_requests_from_returned.
  split; [done|]. by exists used.
Qed.

(** X9.  A terminal failure (a status other than 200 which, when it is
    403, comes without remaining-quota header or with one that holds an
    integer other than zero) on the first request for a repository costs
    that repository only: nothing is added for it, and the harvest goes on
    with the next repository and the next response. *)
Theorem failed_repository_is_skipped (organization : string) repo repositories
    (x : Exchange (gmap string V)) script w pr_data :
  terminal_failure (response x) →
  fetch_pull_requests_from format os_sleep organization (repo :: repositories) (x :: script) w pr_data
  = fetch_pull_requests_from format os_sleep organization repositories script
      (emit (EvPrintFailed (prs_url format organization repo) (status_code (response x)))
         (do_request (prs_url format organization repo) x w))
      pr_data.
Proof.
  intros Hfail. cbn [fetch_pull_requests_from]. unfold fetch_data_in.
  by rewrite fetch_loop_failure.
Qed.

(** X10.  An exception while fetching one repository ends the whole harvest.
    On a quota exhaustion whose computed wait is negative,
    [fetch_pull_requests] raises what [time.sleep] raises on that wait
    ([ValueError], or [OverflowError] below -9223372036 seconds) and the
    pull requests gathered from the repositories before are lost with it. *)
Theorem stale_reset_loses_the_harvest (organization : string) repo repositories
    (x : Exchange (gmap string V)) script w pr_data (T : Z) :
  quota_exhausted (response x) T →
  wait_seconds (clock_us w) x T < 0 →
  fetch_pull_requests_from format os_sleep organization (repo :: repositories) (x :: script) w pr_data
  = (Raised (if wait_seconds (clock_us w) x T <? - sleep_bound
             then Py.OverflowError else Py.ValueError),
     emit (EvPrintRateLimit (wait_seconds (clock_us w) x T))
       (do_request (prs_url format organization repo) x w),
     script).
Proof.
  intros Hq Hwait. cbn [fetch_pull_requests_from]. unfold fetch_data_in.
  by rewrite (fetch_loop_quota_refused _ _ _ _ _ _ T _ (prs_url_truthy _ _) Hq
                (time_sleep_below_zero _ _ Hwait)).
Qed.

End HarvestFacts.

(** ** [main] and the files of the two jobs *)
Section MainFacts.
Import DataExtraction Sessions Harvest.
Context (os_sleep : Z → option Py.exn).
Context {V : Type} (format : V → string).
Implicit Types (w : World) (disk : Disk (V:=V))
  (script rest : list (Exchange (gmap string V))) (dir file : list string).


Lemma os_path_join_inj (a stem t1 t2 : string) :
  os_path_join a (stem +:+ String "_" t1) = os_path_join a (stem +:+ String "_" t2) →
  t1 = t2.
Proof.
  unfold os_path_join.
  assert (Text.startswith (stem +:+ String "_" t1) "/"
          = Text.startswith (stem +:+ String "_" t2) "/") as <-.
  { destruct stem as [|c stem]; [done|]. rewrite !app_cons. simpl.
    destruct (decide ("/"%char = c)); [|done]. by destruct (stem +:+ _), (stem +:+ _). }
  intros Heq.
  assert (stem +:+ String "_" t1 = stem +:+ String "_" t2) as Hb.
  { destruct (Text.startswith (stem +:+ String "_" t1) "/"); [done|].
    destruct (negb (Py.truthy a) || endswith a "/").
    - by apply (inj (String.app a)) in Heq.
    - apply (inj (String.app a)) in Heq. by apply (inj (String.app "/")) in Heq. }
  apply (inj (String.app stem)) in Hb. by simplify_eq.
Qed.

Lemma files_differ dir (organization : string) :
  os_path_join (path_str dir) (repositories_file organization)
  ≠ os_path_join (path_str dir) (pull_requests_file organization).
Proof.
  unfold repositories_file, pull_requests_file. intros Heq.
  apply (os_path_join_inj _ _ "repositories.json" "pull_requests.json") in Heq.
  discriminate Heq.
Qed.


(** X12.  When a fetched repository record has no [name] key, [main] ends
    with [KeyError] after it has saved the repositories file: the file is
    on disk, no pull request has been asked for, and no pull-request file is
    written. *)
Theorem main_missing_name file dir (organization : string) script w disk
    (repos_data : list (gmap string V)) (repo : gmap string V) w1 rest :
  dynamic_path file = Some dir →
  fetch_repositories os_sleep script w organization = (Returned repos_data, w1, rest) →
  repo ∈ repos_data →
  repo !! "name" = None →
  main format os_sleep file organization script w disk
  = (Failed (Py.KeyError "name"), w1, rest,
     save_df_as_json repos_data dir (repositories_file organization) (makedirs dir disk)) ∧
  files (save_df_as_json repos_data dir (repositories_file organization) (makedirs dir disk))
    !! os_path_join (path_str dir) (repositories_file organization) = Some repos_data ∧
  files (save_df_as_json repos_data dir (repositories_file organization) (makedirs dir disk))
    !! os_path_join (path_str dir) (pull_requests_file organization)
  = files disk !! os_path_join (path_str dir) (pull_requests_file organization).
Proof.
  intros Hdir Hfetch Hrepo Hname. unfold main. rewrite Hdir, Hfetch.
  assert (repository_names repos_data = None) as ->.
  { apply mapM_None, Exists_exists. by exists repo. }
  destruct repos_data as [|r0 rs]; [by apply elem_of_nil in Hrepo|].
  split_and!; [done | apply lookup_insert_eq |].
  cbn. rewrite lookup_insert_ne; [done|]. apply files_differ.
Qed.

(** X13.  After a run of [main] that returns, on a disk that held no
    pull-request file of the organization, a pull-request file that is there
    comes with a repositories file, and every record of it is tagged with
    the [name] of a record of the repositories file. *)
Theorem main_files_refer_to_each_other file dir (organization : string) script w disk
    w' rest disk' (prs : list (gmap string V)) :
  dynamic_path file = Some dir →
  files disk !! os_path_join (path_str dir) (pull_requests_file organization) = None →
  main format os_sleep file organization script w disk = (Finished, w', rest, disk') →
  files disk' !! os_path_join (path_str dir) (pull_requests_file organization) = Some prs →
  ∃ repos_data,
    files disk' !! os_path_join (path_str dir) (repositories_file organization)
      = Some repos_data ∧
    ∀ pr, pr ∈ prs →
      ∃ repo name, repo ∈ repos_data ∧ repo !! "name" = Some name ∧
                   pr !! "repository" = Some name.
Proof.
  intros Hdir Hfresh Hmain Hprs. unfold main in Hmain. rewrite Hdir in Hmain.
  destruct (fetch_repositories os_sleep script w organization) as [[[repos_data|e|] w1] rest1];
    [|done..].
  destruct repos_data as [|r0 rs] eqn:Hrepos.
  { simplify_eq. cbn in Hprs. congruence. }
  rewrite <- Hrepos in *.
  destruct (repository_names repos_data) as [names|] eqn:Hnames; [|done].
  destruct (fetch_pull_requests format os_sleep rest1 w1 organization names)
    as [[[pr_data|e|] w2] rest2] eqn:Hharvest; [|done..].
  simplify_eq.
  pose proof (harvest_tags _ format _ _ _ _ _ _ _ Hharvest) as Htags. clear Hharvest.
  destruct pr_data as [|p0 ps] eqn:Hpr_data.
  { cbn in Hprs. rewrite lookup_insert_ne in Hprs by apply files_differ. congruence. }
  rewrite <- Hpr_data in *. exists (r0 :: rs).
  rewrite Hpr_data in Hprs |- *. cbn in Hprs |- *. rewrite <- Hpr_data in *.
  rewrite lookup_insert_eq in Hprs. simplify_eq. split.
  - rewrite lookup_insert_ne by (intros ?; by eapply files_differ).
    apply lookup_insert_eq.
  - intros pr Hpr. destruct (Htags pr Hpr) as (name & Hname & Htag).
    apply mapM_Some_1 in Hnames.
    apply list_elem_of_lookup_1 in Hname as [i Hi].
    destruct (Forall2_lookup_r _ _ _ _ _ Hnames Hi) as (repo & Hrepo & Hlookup).
    exists repo, name. split_and!; [by eapply list_elem_of_lookup_2 | done | done].
Qed.

(** X14.  Run where the repository holds them, the two jobs do not meet: the
    extraction writes its files into [src/main/data/input] under the
    checkout, the transformation reads from [data/input] under the
    checkout, and these directories differ wherever the checkout is. *)
Theorem jobs_use_different_input_directories (root : list string) :
  dynamic_path (extraction_script root) = Some (root ++ ["src"; "main"; "data"; "input"]) ∧
  INPUT_DIRECTORY (transformation_script root) = Some (root ++ ["data"; "input"]) ∧
  root ++ ["src"; "main"; "data"; "input"] ≠ root ++ ["data"; "input"].
Proof.
  unfold dynamic_path, INPUT_DIRECTORY, parents, extraction_script, transformation_script.
  rewrite !length_app. cbn [length].
  rewrite !decide_True by lia. cbn [mbind option_bind].
  split_and!.
  - replace (length root + 5 - 3)%nat with (length root + 2)%nat by lia.
    rewrite take_app_add. cbn [take]. by rewrite <- (assoc (++)).
  - replace (length root + 5 - 5)%nat with (length root) by lia.
    rewrite take_app_length. by rewrite <- (assoc (++)).
  - by intros ?%(inj (app root)).
Qed.


End MainFacts.

(** ** A negative wait, for any accumulated records *)
Section NegativeWait.
Import DataExtraction Sessions.
Context (os_sleep : Z → option Py.exn).
Context {A : Type}.

(** X4.  On a quota exhaustion whose computed wait is negative, the
    exception of [time.sleep] ([ValueError], or [OverflowError] when the
    wait is below -9223372036 seconds) leaves [fetch_data] after the print:
    nothing is slept, no further request is made, and the records gathered
    so far, however many, are not returned. *)
Theorem negative_wait_raises (x : Exchange A) (rest : list (Exchange A)) (w : World)
    (u : string) (acc : list A) (T : Z) :
  u ≠ EmptyString →
  quota_exhausted (response x) T →
  T - (clock_us w + latency_us x) ÷ us_per_second + 1 < 0 →
  ∃ w',
    fetch_loop os_sleep (x :: rest) w (Some u) acc
      = (Raised (if T - (clock_us w + latency_us x) ÷ us_per_second + 1 <? - sleep_bound
                 then Py.OverflowError else Py.ValueError), w', rest) ∧
    log w' = log w ++
      [ EvRequest u (clock_us w);
        EvPrintRateLimit (T - (clock_us w + latency_us x) ÷ us_per_second + 1) ] ∧
    slept (log w') = slept (log w).
Proof.
  intros Hu Hq Hwait. eexists. split_and!.
  - apply (fetch_loop_quota_refused _ _ _ _ _ _ T); [by destruct u | done |].
    by apply time_sleep_below_zero.
  - simpl. by rewrite <- (assoc (++)).
  - simpl. unfold slept. rewrite !omap_app. simpl. by rewrite !app_nil_r.
Qed.

End NegativeWait.

(** ** The extra properties on the samples *)
Section ExtraSamples.
Import DataExtraction Sessions Samples EdgeSamples DataTransformation Scenarios Expected.
Import Harvest HarvestSamples.

Lemma negative_wait_raises_sample :
  ∃ w',
    fetch_loop sample_sleep [quota "998"; page2] (mkWorld 1000650000 []) (Some page2_url) [11; 12]
      = (Raised Py.ValueError, w', [page2]) ∧
    log w' = [] ++ [ EvRequest page2_url 1000650000;
                     EvPrintRateLimit (998 - (1000650000 + 250000) ÷ us_per_second + 1) ] ∧
    slept (log w') = slept [].
Proof.
  apply (negative_wait_raises sample_sleep (quota "998") [page2] (mkWorld 1000650000 [])
           page2_url [11; 12] 998); [discriminate | by apply quota_sample | by vm_compute].
Defined.

Lemma aggregate_rows_are_consistent_sample :
  1 ≤ agg_num_prs aggregate4 ∧
  (agg_merged_at aggregate4 = None ↔ agg_num_prs_merged aggregate4 = Some 0).
Proof.
  apply (aggregate_rows_are_consistent pull_requests aggregate4).
  exact aggregate4_in_scenario.
Defined.

Lemma final_rows_have_pull_requests_sample :
  1 ≤ num_prs recordA ∧ (is_compliant recordA = true → is_Some (merged_at recordA)).
Proof.
  apply (final_rows_have_pull_requests repositories pull_requests recordA).
  exact recordA_in_scenario.
Defined.

Lemma final_df_ignores_input_order_sample :
  pr_aggregated_df pull_requests ≡ₚ pr_aggregated_df (reverse pull_requests) ∧
  final_df repositories pull_requests
    ≡ₚ final_df (reverse repositories) (reverse pull_requests).
Proof.
  apply (final_df_ignores_input_order repositories (reverse repositories)
           pull_requests (reverse pull_requests)).
  - symmetry. apply reverse_Permutation.
  - symmetry. apply reverse_Permutation.
Defined.

Lemma distinct_repositories_distinct_rows_sample :
  NoDup (repository_id <$> final_df repositories pull_requests).
Proof.
  apply (distinct_repositories_distinct_rows repositories pull_requests).
  vm_compute.
  repeat (apply NoDup_cons; split;
          [intros Hin;
           repeat (apply elem_of_cons in Hin as [Hin|Hin]; [discriminate Hin|]);
           by apply elem_of_nil in Hin|]).
  apply NoDup_nil_2.
Defined.

Lemma harvest_returns_the_tagged_pages_sample :
  (∀ pr, pr ∈ tagged → ∃ repo, repo ∈ ["repoA"; "repoB"] ∧ pr !! "repository" = Some repo) ∧
  ∃ used,
    [prs_page; not_found; repos_page] = used ++ [repos_page] ∧
    delete "repository" <$> tagged
      = delete "repository" <$> concat (successful_pages used).
Proof.
  apply (harvest_returns_the_tagged_pages sample_sleep render "scytale" ["repoA"; "repoB"]
           [prs_page; not_found; repos_page] world0 tagged
           (fetch_pull_requests render sample_sleep [prs_page; not_found; repos_page] world0
              "scytale" ["repoA"; "repoB"]).1.2
           [repos_page]).
  vm_compute. reflexivity.
Defined.

Lemma failed_repository_is_skipped_sample :
  fetch_pull_requests_from render sample_sleep "scytale" ["repoB"; "repoA"] [not_found; prs_page]
    world0 tagged
  = fetch_pull_requests_from render sample_sleep "scytale" ["repoA"] [prs_page]
      (emit (EvPrintFailed (prs_url render "scytale" "repoB")
               (status_code (response not_found)))
         (do_request (prs_url render "scytale" "repoB") not_found world0))
      tagged.
Proof.
  apply (failed_repository_is_skipped sample_sleep render "scytale" "repoB" ["repoA"] not_found
           [prs_page] world0 tagged).
  split; [discriminate|]. intros H; discriminate H.
Defined.

Lemma stale_reset_loses_the_harvest_sample :
  fetch_pull_requests_from render sample_sleep "scytale" ["repoB"; "repoA"] [stale_quota; prs_page]
    world0 tagged
  = (Raised Py.ValueError,
     emit (EvPrintRateLimit (wait_seconds (clock_us world0) stale_quota 998))
       (do_request (prs_url render "scytale" "repoB") stale_quota world0),
     [prs_page]).
Proof.
  apply (stale_reset_loses_the_harvest sample_sleep render "scytale" "repoB" ["repoA"] stale_quota
           [prs_page] world0 tagged 998).
  - split; [reflexivity|]. split.
    + exists "0". split; vm_compute; reflexivity.
    + exists "998". split; vm_compute; reflexivity.
  - by vm_compute.
Defined.


Lemma main_missing_name_sample :
  main render sample_sleep (extraction_script checkout) "scytale" [nameless_page; prs_page] world0
    empty_disk
  = (Failed (Py.KeyError "name"),
     (fetch_repositories sample_sleep [nameless_page; prs_page] world0 "scytale").1.2, [prs_page],
     save_df_as_json [repoA_record; nameless_record] input_dir (repositories_file "scytale")
       (makedirs input_dir empty_disk)) ∧
  files (save_df_as_json [repoA_record; nameless_record] input_dir
           (repositories_file "scytale") (makedirs input_dir empty_disk))
    !! os_path_join (path_str input_dir) (repositories_file "scytale")
  = Some [repoA_record; nameless_record] ∧
  files (save_df_as_json [repoA_record; nameless_record] input_dir
           (repositories_file "scytale") (makedirs input_dir empty_disk))
    !! os_path_join (path_str input_dir) (pull_requests_file "scytale")
  = files empty_disk !! os_path_join (path_str input_dir) (pull_requests_file "scytale").
Proof.
  apply (main_missing_name sample_sleep render (extraction_script checkout) input_dir "scytale"
           [nameless_page; prs_page] world0 empty_disk
           [repoA_record; nameless_record] nameless_record).
  - reflexivity.
  - vm_compute. reflexivity.
  - apply (list_elem_of_lookup_2 _ 1%nat). reflexivity.
  - vm_compute. reflexivity.
Defined.

Lemma main_files_refer_to_each_other_sample :
  ∃ repos_data,
    files (main render sample_sleep (extraction_script checkout) "scytale"
             [repos_page; prs_page; not_found] world0 empty_disk).2
      !! os_path_join (path_str input_dir) (repositories_file "scytale")
      = Some repos_data ∧
    ∀ pr, pr ∈ tagged →
      ∃ repo name, repo ∈ repos_data ∧ repo !! "name" = Some name ∧
                   pr !! "repository" = Some name.
Proof.
  apply (main_files_refer_to_each_other sample_sleep render (extraction_script checkout) input_dir
           "scytale" [repos_page; prs_page; not_found] world0 empty_disk
           (main render sample_sleep (extraction_script checkout) "scytale"
              [repos_page; prs_page; not_found] world0 empty_disk).1.1.2
           (main render sample_sleep (extraction_script checkout) "scytale"
              [repos_page; prs_page; not_found] world0 empty_disk).1.2).
  - reflexivity.
  - vm_compute. reflexivity.
  - vm_compute. reflexivity.
  - vm_compute. reflexivity.
Defined.

End ExtraSamples.
